(** * Auto-approval and broadcast bot: a shallow embedding of
      [auro_request_accept.py] and the properties of its stores, its
      failure classifier and its broadcast engine.

    Python integers are [Z]; JSON files are lists of records; the
    per-user [context.user_data] dictionaries live in a [gmap] keyed by the
    user's identity; every call that crosses the platform boundary leaves an
    [effect] in a chronological trace.  Everything the platform decides (does
    a send raise, what does the exception say, which handlers run while a
    call is awaited, what time is it) is an explicit input.

    Conventions of the model:
    - a platform call that the code wraps in [try] may raise; one that it
      does not wrap returns, and a handler is given the update it expects
      ([update.message] is there for a content message);
    - the JSON files hold well-formed records, so reading them does not
      fail;
    - the environment of a handler may run other handlers, each to its end,
      while the handler awaits a platform call.  This is more than the
      dispatcher does: the [Application] that [main] builds has no
      concurrent updates and blocking handlers, so it hands over an update
      only when the handler of the previous one has returned.  Theorems
      stated for every environment hold a fortiori of the program; what is
      said of the program alone is stated for the environments in which
      nothing runs during an await;
    - strings are byte strings and [str.lower] acts on the ASCII range. *)

From Stdlib Require Import ZArith List String Ascii Bool Lia SpecFloat.
From stdpp Require Import base option list gmap strings pretty.
Import ListNotations.

Local Open Scope string_scope.
Local Open Scope list_scope.
Local Open Scope Z_scope.

(* ===================================================================== *)
(** ** Persistent data *)
(* ===================================================================== *)

(** The four JSON files named at the top of the module. *)
Inductive file := USERS_FILE | CHANNELS_FILE | ADMINS_FILE | BROADCASTS_FILE.

(** A record of [users.json], as [save_user] builds it. *)
Record user := mk_user {
  user_id : Z;
  username : string;
  first_name : string;
  last_name : string;
  join_date : string;
  approved_channels : list Z
}.

(** A record of [channels.json]; its ['username'] and ['join_date'] keys are
    prefixed here because field names are global. *)
Record channel := mk_channel {
  channel_id : Z;
  title : string;
  channel_username : string;
  channel_join_date : string
}.

(** The five numbers the engine carries as local variables and copies into
    [user_data['broadcast_stats']] and into a record of [broadcasts.json]. *)
Record stats := mk_stats {
  total_users : Z;
  successful : Z;
  blocked : Z;
  deleted : Z;
  unsuccessful : Z
}.

(** A record of [broadcasts.json]: three own keys and the five numbers. *)
Record broadcast_run := mk_run {
  admin_id : Z;
  message_type : string;
  sent_date : string;
  run_stats : stats
}.

Definition ADMIN_IDS : list Z := [1524473035].

(** [user_id not in ADMIN_IDS] is [negb (is_admin user_id)]. *)
Definition is_admin (actor : Z) : bool := bool_decide (actor ∈ ADMIN_IDS).

(* ===================================================================== *)
(** ** Session state: [context.user_data] *)
(* ===================================================================== *)

(** The dictionary only ever holds these four keys; [None] is an absent
    key, so ['k' in user_data] is [is_Some] and [del] stores [None]. *)
Record user_data := mk_ud {
  awaiting_broadcast : option bool;
  broadcast_in_progress : option bool;
  broadcast_cancelled : option bool;
  broadcast_stats : option stats
}.

Definition empty_user_data : user_data := mk_ud None None None None.

(** [user_data.get(key, False)] used as a condition. *)
Definition get_flag (v : option bool) : bool := default false v.

Definition set_awaiting (v : option bool) (ud : user_data) : user_data :=
  mk_ud v (broadcast_in_progress ud) (broadcast_cancelled ud) (broadcast_stats ud).
Definition set_in_progress (v : option bool) (ud : user_data) : user_data :=
  mk_ud (awaiting_broadcast ud) v (broadcast_cancelled ud) (broadcast_stats ud).
Definition set_cancelled (v : option bool) (ud : user_data) : user_data :=
  mk_ud (awaiting_broadcast ud) (broadcast_in_progress ud) v (broadcast_stats ud).
Definition set_stats (v : option stats) (ud : user_data) : user_data :=
  mk_ud (awaiting_broadcast ud) (broadcast_in_progress ud) (broadcast_cancelled ud) v.

(* ===================================================================== *)
(** ** Observable effects *)
(* ===================================================================== *)

(** Texts sent with [update.message.reply_text]; the numbers a text
    interpolates are kept, its wording is not. *)
Inductive reply :=
| Welcome
| NotAuthorized
| BroadcastPrompt
| CancelledPartialResults
| PreparationCancelled
| NoBroadcastToCancel
| NoStatisticsAvailable
| BroadcastProgress (s : stats)
| NoUsersInDatabase
| BotStatistics (users channels : Z) (runs : option (Z * stats)).

Inductive log_site :=
| LogApproved | LogNotification | LogApproving | LogSending | LogProgress
| LogFinalProgress.

(** [EProgressStart] and [EProgressEdit] are the progress message with its
    "Cancel Broadcast" button; [EFinalEdit] is the edit to "Broadcast
    completed! N users processed" and [EButtonEdit] the edit to "Broadcast
    cancelled by admin.", both with [reply_markup=None]. *)
Inductive effect :=
| EWriteJson (f : file)
| EApprove (uid cid : Z)
| ELog (site : log_site)
| ENotify (uid : Z) (channel_title : string)
| EReply (actor : Z) (m : reply)
| EProgressStart (actor total : Z)
| ESendMessage (chat : Z) (body : string)
| ESendPhoto (chat : Z) (file_id : string) (caption : option string)
| ESendVideo (chat : Z) (file_id : string) (caption : option string)
| EProgressEdit (processed total percentage n_successful n_failed : Z)
| EFinalEdit (total : Z)
| EAnswerQuery (actor : Z)
| EButtonEdit (actor : Z).

Global Instance file_eq_dec : EqDecision file.
Proof. solve_decision. Defined.
Global Instance stats_eq_dec : EqDecision stats.
Proof. solve_decision. Defined.
Global Instance reply_eq_dec : EqDecision reply.
Proof. solve_decision. Defined.
Global Instance log_site_eq_dec : EqDecision log_site.
Proof. solve_decision. Defined.
Global Instance effect_eq_dec : EqDecision effect.
Proof. solve_decision. Defined.

(** The whole state a handler can read or change. *)
Record world := mk_world {
  users_db : list user;
  channels_db : list channel;
  broadcasts_db : list broadcast_run;
  sessions : gmap Z user_data;
  trace : list effect
}.

Definition emit (e : effect) (w : world) : world :=
  mk_world (users_db w) (channels_db w) (broadcasts_db w) (sessions w)
           (trace w ++ [e]).

(** [context.user_data] of [actor]; a dictionary is created on first use. *)
Definition session (w : world) (actor : Z) : user_data :=
  default empty_user_data (sessions w !! actor).

Definition update_session (actor : Z) (f : user_data → user_data) (w : world)
  : world :=
  mk_world (users_db w) (channels_db w) (broadcasts_db w)
           (<[actor := f (session w actor)]> (sessions w)) (trace w).

(** [write_json(file, data)] for the three files that are ever written. *)
Definition write_users (data : list user) (w : world) : world :=
  emit (EWriteJson USERS_FILE)
       (mk_world data (channels_db w) (broadcasts_db w) (sessions w) (trace w)).
Definition write_channels (data : list channel) (w : world) : world :=
  emit (EWriteJson CHANNELS_FILE)
       (mk_world (users_db w) data (broadcasts_db w) (sessions w) (trace w)).
Definition write_broadcasts (data : list broadcast_run) (w : world) : world :=
  emit (EWriteJson BROADCASTS_FILE)
       (mk_world (users_db w) (channels_db w) data (sessions w) (trace w)).

(* ===================================================================== *)
(** ** [save_user] *)
(* ===================================================================== *)

(** The body of the [if channel_id not in user['approved_channels']]. *)
Definition add_channel (cid : Z) (u : user) : user :=
  if decide (cid ∈ approved_channels u) then u
  else mk_user (user_id u) (username u) (first_name u) (last_name u)
               (join_date u) (approved_channels u ++ [cid]).

(** The [for user in users] loop with its [break]: the flag is
    [user_exists], the list is [users] after the in-place update. *)
Fixpoint scan_users (uid cid : Z) (users : list user) : bool * list user :=
  match users with
  | [] => (false, [])
  | u :: rest =>
      if user_id u =? uid then (true, add_channel cid u :: rest)
      else let r := scan_users uid cid rest in (fst r, u :: snd r)
  end.

(** [any(channel['channel_id'] == channel_id for channel in channels)]. *)
Definition channel_exists (cid : Z) (channels : list channel) : bool :=
  existsb (fun c => channel_id c =? cid) channels.

(** The two calls of [datetime.datetime.now()] are the inputs [now_user]
    and [now_channel]. *)
Definition save_user (now_user now_channel : string)
    (uid : Z) (uname fname lname : string) (cid : Z) (ctitle : string)
    (w : world) : world :=
  let r := scan_users uid cid (users_db w) in
  let users :=
    if fst r then snd r
    else snd r ++ [mk_user uid uname fname lname now_user [cid]] in
  let w := write_users users w in
  let channels := channels_db w in
  if channel_exists cid channels then w
  else write_channels
         (channels ++ [mk_channel cid ctitle ("channel_" +:+ pretty cid)
                                  now_channel]) w.

(* ===================================================================== *)
(** ** [approve_user] *)
(* ===================================================================== *)

(** What a join-request update carries; [None] is Python's [None]. *)
Record join_request := mk_jr {
  from_user_id : Z;
  from_username : option string;
  from_first_name : option string;
  from_last_name : option string;
  chat_id : Z;
  chat_title : option string
}.

(** [value or fallback] on an optional string: [None] and [""] are falsy. *)
Definition or_else (v : option string) (fallback : string) : string :=
  match v with
  | Some s => if decide (s = "") then fallback else s
  | None => fallback
  end.

(** What the platform does with the two calls of one approval. *)
Record approve_env := mk_approve_env {
  approve_ok : bool;
  notify_ok : bool;
  now_user : string;
  now_channel : string
}.

Definition approve_user (env : approve_env) (jr : join_request) (w : world)
  : world :=
  let uid := from_user_id jr in
  let uname := or_else (from_username jr) "No username" in
  let fname := or_else (from_first_name jr) "" in
  let lname := or_else (from_last_name jr) "" in
  let cid := chat_id jr in
  let ctitle := or_else (chat_title jr) ("Channel " +:+ pretty cid) in
  let w := emit (EApprove uid cid) w in
  if approve_ok env then
    let w := emit (ELog LogApproved) w in
    let w := save_user (now_user env) (now_channel env)
                       uid uname fname lname cid ctitle w in
    let w := emit (ENotify uid ctitle) w in
    if notify_ok env then w else emit (ELog LogNotification) w
  else emit (ELog LogApproving) w.

(* ===================================================================== *)
(** ** Failure classification *)
(* ===================================================================== *)

(** [str.lower()] on the ASCII range, where the platform's English error
    descriptions live: ['A'..'Z'] move down by 32, other bytes stay. *)
Definition lower_ascii (c : ascii) : ascii :=
  let n := nat_of_ascii c in
  if ((65 <=? n) && (n <=? 90))%nat then ascii_of_nat (n + 32) else c.

Fixpoint lower (s : string) : string :=
  match s with
  | EmptyString => EmptyString
  | String c s' => String (lower_ascii c) (lower s')
  end.

(** [sub in s] on strings: [sub] starts at some position of [s]. *)
Fixpoint contains (sub s : string) : bool :=
  String.prefix sub s ||
  match s with
  | EmptyString => false
  | String _ s' => contains sub s'
  end.

Inductive category := Blocked | DeletedAccount | Unsuccessful.

(** The [except] branch of the delivery loop, on [str(e)]. *)
Definition classify (e : string) : category :=
  let error_msg := lower e in
  if contains "blocked" error_msg then Blocked
  else if contains "deleted" error_msg || contains "not found" error_msg
       then DeletedAccount
  else Unsuccessful.

Definition bump_successful (c : stats) : stats :=
  mk_stats (total_users c) (successful c + 1) (blocked c) (deleted c)
           (unsuccessful c).

Definition bump (k : category) (c : stats) : stats :=
  match k with
  | Blocked =>
      mk_stats (total_users c) (successful c) (blocked c + 1) (deleted c)
               (unsuccessful c)
  | DeletedAccount =>
      mk_stats (total_users c) (successful c) (blocked c) (deleted c + 1)
               (unsuccessful c)
  | Unsuccessful =>
      mk_stats (total_users c) (successful c) (blocked c) (deleted c)
               (unsuccessful c + 1)
  end.

(* ===================================================================== *)
(** ** The percentage shown in the progress indicator *)
(* ===================================================================== *)

(** [int((i + 1) / total_users * 100)] is computed in binary64: a true
    division of two integers, a product with [100.0], a truncation.  Integers
    below [2^53] convert exactly, which is when CPython divides the two
    doubles, so the model is exact for every list that fits in memory. *)
Definition prec : Z := 53.
Definition emax : Z := 1024.

Definition float_of_int (z : Z) : spec_float :=
  binary_normalize prec emax z 0 false.

(** [int(x)] truncates towards zero.  Python raises on an infinity or a
    NaN; with [1 <= i + 1 <= total_users] the quotient lies in (0, 1], so
    that case is out of reach and is mapped to [0]. *)
Definition int_of_float (x : spec_float) : Z :=
  match x with
  | S754_finite s m e =>
      let a := match e with
               | Z0 => Zpos m
               | Zpos p => Zpos m * Z.pow_pos 2 p
               | Zneg p => Zpos m / Z.pow_pos 2 p
               end in
      if s then - a else a
  | _ => 0
  end.

Definition percentage (processed total : Z) : Z :=
  int_of_float
    (SFmul prec emax
       (SFdiv prec emax (float_of_int processed) (float_of_int total))
       (float_of_int 100)).

(** The percentage the progress indicator is described to show: the floor
    of the exact quotient. *)
Definition exact_percentage (processed total : Z) : Z :=
  processed * 100 / total.

(* ===================================================================== *)
(** ** Handlers that may run while the engine awaits the platform *)
(* ===================================================================== *)

Definition show_broadcast_stats (actor : Z) (w : world) : world :=
  match broadcast_stats (session w actor) with
  | None => emit (EReply actor NoStatisticsAvailable) w
  | Some s => emit (EReply actor (BroadcastProgress s)) w
  end.

Definition broadcast (actor : Z) (w : world) : world :=
  if negb (is_admin actor) then emit (EReply actor NotAuthorized) w
  else
    let w := emit (EReply actor BroadcastPrompt) w in
    update_session actor (set_awaiting (Some true)) w.

Definition cancel_broadcast (actor : Z) (w : world) : world :=
  if bool_decide (is_Some (broadcast_in_progress (session w actor))) then
    let w := update_session actor (set_cancelled (Some true)) w in
    let w := emit (EReply actor CancelledPartialResults) w in
    show_broadcast_stats actor w
  else if bool_decide (is_Some (awaiting_broadcast (session w actor))) then
    let w := update_session actor (set_awaiting None) w in
    emit (EReply actor PreparationCancelled) w
  else emit (EReply actor NoBroadcastToCancel) w.

(** [data] is [query.data], the payload of the pressed button. *)
Definition button_handler (actor : Z) (data : string) (w : world) : world :=
  let w := emit (EAnswerQuery actor) w in
  if decide (data = "cancel_broadcast") then
    let w := update_session actor (set_cancelled (Some true)) w in
    emit (EButtonEdit actor) w
  else w.

Definition sum_stats (l : list broadcast_run) : stats :=
  fold_left
    (fun acc b =>
       let s := run_stats b in
       mk_stats (total_users acc + total_users s)
                (successful acc + successful s) (blocked acc + blocked s)
                (deleted acc + deleted s) (unsuccessful acc + unsuccessful s))
    l (mk_stats 0 0 0 0 0).

Definition stats_command (actor : Z) (w : world) : world :=
  if negb (is_admin actor) then emit (EReply actor NotAuthorized) w
  else
    let nu := Z.of_nat (length (users_db w)) in
    let nc := Z.of_nat (length (channels_db w)) in
    match broadcasts_db w with
    | [] => emit (EReply actor (BotStatistics nu nc None)) w
    | bs =>
        emit (EReply actor
                (BotStatistics nu nc
                   (Some (Z.of_nat (length bs), sum_stats bs)))) w
    end.

Definition start (actor : Z) (w : world) : world :=
  emit (EReply actor Welcome) w.

(** The updates an environment may have handled while a broadcast handler
    is suspended in a platform call: every handler of the module except a
    second, nested [handle_broadcast_message].  Each runs to its end before
    the suspended handler resumes. *)
Inductive event :=
| JoinRequest (env : approve_env) (jr : join_request)
| StartCommand (actor : Z)
| BroadcastCommand (actor : Z)
| StatsCommand (actor : Z)
| CancelCommand (actor : Z)
| ButtonPress (actor : Z) (data : string).

Definition handle_event (w : world) (ev : event) : world :=
  match ev with
  | JoinRequest env jr => approve_user env jr w
  | StartCommand actor => start actor w
  | BroadcastCommand actor => broadcast actor w
  | StatsCommand actor => stats_command actor w
  | CancelCommand actor => cancel_broadcast actor w
  | ButtonPress actor data => button_handler actor data w
  end.

Definition run_events (evs : list event) (w : world) : world :=
  fold_left handle_event evs w.

(** A cancellation action by [actor]: the cancel command, or a press of the
    button that carries ["cancel_broadcast"]. *)
Definition cancels (actor : Z) (ev : event) : bool :=
  match ev with
  | CancelCommand a => bool_decide (a = actor)
  | ButtonPress a data =>
      bool_decide (a = actor) && bool_decide (data = "cancel_broadcast")
  | _ => false
  end.

(* ===================================================================== *)
(** ** The broadcast engine: [handle_broadcast_message] *)
(* ===================================================================== *)

(** The attributes of [update.message] the engine reads.  [msg_photo] is the
    list of sizes' file ids, the last being the largest; the two
    [*_markdown_v2] attributes are renderings the client library supplies. *)
Record message := mk_message {
  msg_text : option string;
  text_markdown_v2 : string;
  msg_photo : list string;
  msg_video : option string;
  msg_caption : option string;
  caption_markdown_v2 : string
}.

(** Truthiness of an optional string: [None] and [""] are falsy. *)
Definition truthy (v : option string) : bool :=
  match v with
  | Some s => negb (bool_decide (s = ""))
  | None => false
  end.

(** [message.caption_markdown_v2 if message.caption else None]. *)
Definition caption_of (m : message) : option string :=
  if truthy (msg_caption m) then Some (caption_markdown_v2 m) else None.

(** The [if message.text / elif message.photo / elif message.video] of the
    [try] block: the platform call that is made, if any. *)
Definition dispatch (m : message) (chat : Z) : option effect :=
  if truthy (msg_text m) then Some (ESendMessage chat (text_markdown_v2 m))
  else
    match last (msg_photo m) with
    | Some fid => Some (ESendPhoto chat fid (caption_of m))
    | None =>
        match msg_video m with
        | Some fid => Some (ESendVideo chat fid (caption_of m))
        | None => None
        end
    end.

(** The [message_type] written to the report. *)
Definition message_type_of (m : message) : string :=
  match msg_photo m with
  | _ :: _ => "photo"
  | [] => match msg_video m with Some _ => "video" | None => "text" end
  end.

(** What the platform does during one iteration of the loop: the send
    returns ([None]) or raises with description [Some e]; the progress edit
    succeeds or raises; cancellation actions may be handled during either
    await. *)
Record delivery := mk_delivery {
  outcome : option string;
  during_send : list event;
  edit_ok : bool;
  during_edit : list event
}.

(** The [try ... except] around the send: one recipient. *)
Definition deliver (d : delivery) (m : message) (u : user) (c : stats)
    (w : world) : world * stats :=
  match dispatch m (user_id u) with
  | None => (w, bump_successful c)
  | Some call =>
      let w := run_events (during_send d) (emit call w) in
      match outcome d with
      | None => (w, bump_successful c)
      | Some e => (emit (ELog LogSending) w, bump (classify e) c)
      end
  end.

(** The body of [if i % 10 == 0 or i == len(users) - 1]. *)
Definition publish_progress (d : delivery) (actor i : Z) (c : stats)
    (w : world) : world :=
  let w := update_session actor (set_stats (Some c)) w in
  let w :=
    emit (EProgressEdit (i + 1) (total_users c)
            (percentage (i + 1) (total_users c)) (successful c)
            (blocked c + deleted c + unsuccessful c)) w in
  let w := run_events (during_edit d) w in
  if edit_ok d then w else emit (ELog LogProgress) w.

Definition progress_due (i n : Z) : bool := (i mod 10 =? 0) || (i =? n - 1).

(** The state in which the [for] loop is left. *)
Record loop_exit := mk_exit {
  exit_world : world;
  exit_stats : stats;
  processed : Z;
  stopped : bool
}.

(** [for i, user in enumerate(users)]: [n] is [len(users)] of the whole
    snapshot, [users] what is left of it, [i] the index of its head.
    [processed] is the number of iterations whose body ran and [stopped]
    tells whether the loop was left through [break]. *)
Fixpoint broadcast_loop (env : Z → delivery) (actor : Z) (m : message)
    (n : Z) (users : list user) (i : Z) (c : stats) (w : world) : loop_exit :=
  match users with
  | [] => mk_exit w c i false
  | u :: rest =>
      if get_flag (broadcast_cancelled (session w actor)) then
        mk_exit w c i true
      else
        let d := env i in
        let r := deliver d m u c w in
        let w := if progress_due i n
                 then publish_progress d actor i (snd r) (fst r)
                 else fst r in
        broadcast_loop env actor m n rest (i + 1) (snd r) w
  end.

(** The platform's side of one run. *)
Record run_env := mk_run_env {
  during_start : list event;
  deliveries : Z → delivery;
  now : string;
  final_edit_ok : bool;
  during_final_edit : list event
}.

(** From [del context.user_data['awaiting_broadcast']] to the first
    progress message; [users] is the non-empty snapshot. *)
Definition begin_broadcast (env : run_env) (actor : Z) (users : list user)
    (w : world) : world :=
  let c0 := mk_stats (Z.of_nat (length users)) 0 0 0 0 in
  let w := update_session actor (set_stats (Some c0)) w in
  let w := update_session actor (set_in_progress (Some true)) w in
  let w := update_session actor (set_cancelled (Some false)) w in
  let w := emit (EProgressStart actor (Z.of_nat (length users))) w in
  run_events (during_start env) w.

Definition run_loop (env : run_env) (actor : Z) (m : message)
    (users : list user) (w : world) : loop_exit :=
  broadcast_loop (deliveries env) actor m (Z.of_nat (length users)) users 0
    (mk_stats (Z.of_nat (length users)) 0 0 0 0) w.

(** Whether the run counts as cancelled after the loop: the flag the
    [if not context.user_data.get('broadcast_cancelled', False)] reads. *)
Definition cancelled_at_exit (actor : Z) (x : loop_exit) : bool :=
  get_flag (broadcast_cancelled (session (exit_world x) actor)).

(** Everything after the loop. *)
Definition finish_broadcast (env : run_env) (actor : Z) (m : message)
    (x : loop_exit) : world :=
  let w := update_session actor (set_in_progress None) (exit_world x) in
  let w :=
    if negb (get_flag (broadcast_cancelled (session w actor))) then
      write_broadcasts
        (broadcasts_db w ++
           [mk_run actor (message_type_of m) (now env) (exit_stats x)]) w
    else w in
  let w := emit (EFinalEdit (total_users (exit_stats x))) w in
  let w := run_events (during_final_edit env) w in
  let w := if final_edit_ok env then w else emit (ELog LogFinalProgress) w in
  show_broadcast_stats actor w.

Definition handle_broadcast_message (env : run_env) (actor : Z) (m : message)
    (w : world) : world :=
  if negb (get_flag (awaiting_broadcast (session w actor))) then w
  else if negb (is_admin actor) then w
  else
    let w := update_session actor (set_awaiting None) w in
    match users_db w with
    | [] => emit (EReply actor NoUsersInDatabase) w
    | users =>
        finish_broadcast env actor m
          (run_loop env actor m users (begin_broadcast env actor users w))
    end.

(* ===================================================================== *)
(** ** Routing: the handlers [main] registers *)
(* ===================================================================== *)

(** An update is routed to one of the handlers above, or, for a text, photo
    or video message that is not a command, to [handle_broadcast_message]. *)
Inductive update :=
| Routed (ev : event)
| Content (env : run_env) (actor : Z) (m : message).

Definition handle_update (w : world) (up : update) : world :=
  match up with
  | Routed ev => handle_event w ev
  | Content env actor m => handle_broadcast_message env actor m w
  end.

Definition run_updates (ups : list update) (w : world) : world :=
  fold_left handle_update ups w.


(* ===================================================================== *)
(** ** Start-up: [init_data_files] *)
(* ===================================================================== *)

Section Disk.

(** The disk maps a file name to the list the file holds; the records are
    of no concern at start-up.  [os.path.exists(file)] is [is_Some]. *)
Variable record : Type.

Definition file_name (f : file) : string :=
  match f with
  | USERS_FILE => "users.json"
  | CHANNELS_FILE => "channels.json"
  | ADMINS_FILE => "admins.json"
  | BROADCASTS_FILE => "broadcasts.json"
  end.

(** The body of the [for]: [json.dump([], f)] into a file that is not
    there. *)
Definition init_file (disk : gmap string (list record)) (f : file)
  : gmap string (list record) :=
  match disk !! file_name f with
  | Some _ => disk
  | None => <[file_name f := []]> disk
  end.

Definition init_data_files (disk : gmap string (list record))
  : gmap string (list record) :=
  fold_left init_file
    [USERS_FILE; CHANNELS_FILE; ADMINS_FILE; BROADCASTS_FILE] disk.

End Disk.

(* ===================================================================== *)
(** ** Vocabulary of the statements *)
(* ===================================================================== *)

(** The users list [save_user] writes. *)
Definition saved_users (now_user : string) (uid : Z)
    (uname fname lname : string) (cid : Z) users : list user :=
  let r := scan_users uid cid users in
  if fst r then snd r
  else snd r ++ [mk_user uid uname fname lname now_user [cid]].

Definition saved_channels (now_channel : string) (cid : Z) (ctitle : string)
    (channels : list channel) : list channel :=
  if channel_exists cid channels then channels
  else channels ++ [mk_channel cid ctitle ("channel_" +:+ pretty cid)
                               now_channel].

(** The invariant of the two stores: identities are unique and no channel is
    listed twice for a user. *)
Definition store_ok w : Prop :=
  NoDup (map user_id (users_db w))
  ∧ Forall (fun u => NoDup (approved_channels u)) (users_db w)
  ∧ NoDup (map channel_id (channels_db w)).

(** [sub] occurs in [s]. *)
Definition substring (sub s : string) : Prop :=
  ∃ pre post, s = pre +:+ sub +:+ post.

(** The effects of the handlers that run while the engine is suspended. *)
Definition chatter (e : effect) : bool :=
  match e with
  | EReply _ _ | EAnswerQuery _ | EButtonEdit _ => true
  | EApprove _ _ | ENotify _ _ | ELog _ => true
  | EWriteJson USERS_FILE | EWriteJson CHANNELS_FILE => true
  | _ => false
  end.

(** The effects of the delivery loop itself. *)
Definition loop_effect (e : effect) : bool :=
  match e with
  | ESendMessage _ _ | ESendPhoto _ _ _ | ESendVideo _ _ _
  | ELog _ | EProgressEdit _ _ _ _ _ => true
  | _ => chatter e
  end.

Definition is_send (e : effect) : bool :=
  match e with
  | ESendMessage _ _ | ESendPhoto _ _ _ | ESendVideo _ _ _ => true
  | _ => false
  end.

Definition is_progress_edit (e : effect) : bool :=
  match e with EProgressEdit _ _ _ _ _ => true | _ => false end.

Definition is_final_edit (e : effect) : bool :=
  match e with EFinalEdit _ => true | _ => false end.

Definition is_write (f : file) (e : effect) : bool :=
  bool_decide (e = EWriteJson f).

(** Zero-based index of the recipient a progress edit was published after. *)
Definition edit_index (e : effect) : Z :=
  match e with EProgressEdit p _ _ _ _ => p - 1 | _ => -1 end.

(** A progress edit that reports what the engine has counted so far. *)
Definition reports_counts (n : Z) (e : effect) : Prop :=
  ∃ p s f, e = EProgressEdit p n (percentage p n) s f ∧ s + f = p.

Definition counted (c : stats) : Z :=
  successful c + blocked c + deleted c + unsuccessful c.

(** What the engine itself sends out for one recipient, and for one
    republication of the progress indicator. *)
Definition deliver_effects (d : delivery) (m : message) (u : user)
  : list effect :=
  match dispatch m (user_id u) with
  | None => []
  | Some call =>
      call :: match outcome d with None => [] | Some _ => [ELog LogSending] end
  end.

Definition progress_effects (d : delivery) (i : Z) (c : stats)
  : list effect :=
  EProgressEdit (i + 1) (total_users c) (percentage (i + 1) (total_users c))
                (successful c) (blocked c + deleted c + unsuccessful c)
  :: (if edit_ok d then [] else [ELog LogProgress]).

(** The handler gets past its guards and enters the loop. *)
Definition starts_run (actor : Z) (w : world) : Prop :=
  get_flag (awaiting_broadcast (session w actor)) = true
  ∧ is_admin actor = true
  ∧ users_db w ≠ [].

(** The loop exit that [handle_broadcast_message] reaches from [w]. *)
Definition loop_of (env : run_env) (actor : Z) (m : message) (w : world)
  : loop_exit :=
  run_loop env actor m (users_db w)
    (begin_broadcast env actor (users_db w)
       (update_session actor (set_awaiting None) w)).

Definition send_target (e : effect) : Z :=
  match e with
  | ESendMessage chat _ | ESendPhoto chat _ _ | ESendVideo chat _ _ => chat
  | _ => 0
  end.

(** The counters after one recipient. *)
Definition tally (d : delivery) (m : message) (u : user) (c : stats) : stats :=
  match dispatch m (user_id u), outcome d with
  | Some _, Some e => bump (classify e) c
  | _, _ => bump_successful c
  end.

(** The engine's own effects over the first [k] iterations of the loop. *)
Fixpoint engine_effects (env : Z → delivery) (m : message) (n : Z)
    (users : list user) (i : Z) (c : stats) (k : nat) : list effect :=
  match k, users with
  | S k', u :: rest =>
      let d := env i in
      let c' := tally d m u c in
      deliver_effects d m u
      ++ (if progress_due i n then progress_effects d i c' else [])
      ++ engine_effects env m n rest (i + 1) c' k'
  | _, _ => []
  end.

(** The engine's own effects after the loop. *)
Definition finish_effects (env : run_env) (cancelled : bool) (total : Z)
  : list effect :=
  (if cancelled then [] else [EWriteJson BROADCASTS_FILE])
  ++ EFinalEdit total
  :: (if final_edit_ok env then [] else [ELog LogFinalProgress]).

(** No session of an actor outside the allow-list holds a marker of a
    requested or running broadcast. *)
Definition no_foreign_markers (w : world) : Prop :=
  ∀ a, is_admin a = false →
       awaiting_broadcast (session w a) = None
       ∧ broadcast_in_progress (session w a) = None.

(** A change of a session that creates no marker. *)
Definition creates_no_marker (f : user_data → user_data) : Prop :=
  ∀ ud, (awaiting_broadcast ud = None → awaiting_broadcast (f ud) = None)
        ∧ (broadcast_in_progress ud = None →
           broadcast_in_progress (f ud) = None).


(* ===================================================================== *)
(** ** Sample inputs *)
(* ===================================================================== *)

Definition operator : Z := 1524473035.
Definition stranger : Z := 42.

Definition alice : user := mk_user 11 "alice" "Alice" "A" "2024-01-01" [-1001].
Definition bob : user := mk_user 12 "bob" "Bob" "B" "2024-01-02" [-1001].
Definition carol : user := mk_user 13 "carol" "Carol" "C" "2024-01-03" [-1002].
Definition lobby : channel :=
  mk_channel (-1001) "Lobby" "channel_-1001" "2024-01-01".

(** The state right after [init_data_files]. *)
Definition fresh : world := mk_world [] [] [] ∅ [].

Definition two_users : world := mk_world [alice; bob] [lobby] [] ∅ [].

Definition blocked_and_missing : string :=
  "Forbidden: bot was BLOCKED by the user (chat not found, deleted)".
Definition account_deleted : string := "Forbidden: user is Deleted".
Definition flood : string := "Flood control exceeded. Retry in 31 seconds".

Definition hello : message := mk_message (Some "hello") "hello" [] None None "".

(** A delivery during which nothing else happens, and one during which the
    operator presses the Cancel button. *)
Definition smooth : delivery := mk_delivery None [] true [].
Definition press_cancel : delivery :=
  mk_delivery None [ButtonPress operator "cancel_broadcast"] true [].

Definition calm : run_env :=
  mk_run_env [] (fun _ => smooth) "2024-02-01 10:00:00" true [].
Definition cancel_while_sending : run_env :=
  mk_run_env [] (fun _ => press_cancel) "2024-02-01 10:00:00" true [].
Definition cancel_at_start : run_env :=
  mk_run_env [CancelCommand operator] (fun _ => smooth)
             "2024-02-01 10:00:00" true [].

(** [n] recipients numbered from 0. *)
Definition crowd (n : nat) : world :=
  mk_world (map (fun k => mk_user (Z.of_nat k) "" "" "" "" []) (seq 0 n))
           [] [] ∅ [].

(* ===================================================================== *)
(** ** Further vocabulary *)
(* ===================================================================== *)

(** [w] holds every user record of [w0] at its place, with the same
    profile and an approved list that extends the old one, and every
    channel record of [w0] at its place. *)
Definition extends_stores (w0 w : world) : Prop :=
  (∀ (i : nat) u, users_db w0 !! i = Some u →
     ∃ u', users_db w !! i = Some u'
           ∧ user_id u' = user_id u ∧ username u' = username u
           ∧ first_name u' = first_name u ∧ last_name u' = last_name u
           ∧ join_date u' = join_date u
           ∧ approved_channels u `prefix_of` approved_channels u')
  ∧ channels_db w0 `prefix_of` channels_db w.

(** What every record of the broadcasts file satisfies. *)
Definition complete_run (r : broadcast_run) : Prop :=
  is_admin (admin_id r) = true
  ∧ 1 ≤ total_users (run_stats r)
  ∧ counted (run_stats r) = total_users (run_stats r)
  ∧ message_type r ∈ ["text"; "photo"; "video"].

(** The message has something to send: the [if/elif] chain of the loop
    reaches one of its three calls. *)
Definition has_content (m : message) : Prop :=
  ∀ chat, is_Some (dispatch m chat).

(** How many of the indices [js] had a delivery of the given result:
    [None] is a delivery that returned, [Some k] one that raised with a
    description classified as [k]. *)
Definition result_of (d : delivery) : option category :=
  classify <$> outcome d.

Global Instance category_eq_dec : EqDecision category.
Proof. solve_decision. Defined.

Definition count_results (env : Z → delivery) (r : option category)
    (js : list Z) : Z :=
  Z.of_nat (length (List.filter (fun j => bool_decide (result_of (env j) = r))
                                js)).

(** No cancellation action by [actor] is handled during the run. *)
Definition never_cancelled (actor : Z) (env : run_env) : Prop :=
  Forall (fun ev => cancels actor ev = false) (during_start env)
  ∧ ∀ i, Forall (fun ev => cancels actor ev = false)
                (during_send (deliveries env i))
         ∧ Forall (fun ev => cancels actor ev = false)
                  (during_edit (deliveries env i)).

(** The actor an update comes from, when the handler looks at it. *)
Definition update_actor (up : update) : option Z :=
  match up with
  | Routed (JoinRequest _ _) => None
  | Routed (StartCommand a) | Routed (BroadcastCommand a)
  | Routed (StatsCommand a) | Routed (CancelCommand a)
  | Routed (ButtonPress a _) => Some a
  | Content _ a _ => Some a
  end.

Definition from_outsider (up : update) : Prop :=
  match update_actor up with
  | Some a => is_admin a = false
  | None => True
  end.

(** Three deliveries of which the second is refused. *)
Definition refused : delivery :=
  mk_delivery (Some "Forbidden: bot was blocked by the user") [] true [].
Definition second_refused : run_env :=
  mk_run_env [] (fun i => if i =? 1 then refused else smooth)
             "2024-02-01 10:00:00" false [].
Definition three_users : world := mk_world [alice; bob; carol] [] [] ∅ [].

(** A join request, a broadcast request and its content, in that order. *)
Definition one_broadcast : list update :=
  [Routed (JoinRequest (mk_approve_env true true "t1" "t2")
             (mk_jr 11 (Some "alice") (Some "Alice") None (-1001)
                    (Some "Lobby")));
   Routed (BroadcastCommand operator);
   Content calm operator hello].

(** What a handler that runs during an await may do to a session: it
    leaves the running marker and the stored statistics alone, and it leaves
    the cancellation flag alone or sets it. *)
Definition event_step (ud ud' : user_data) : Prop :=
  broadcast_in_progress ud' = broadcast_in_progress ud
  ∧ broadcast_stats ud' = broadcast_stats ud
  ∧ (broadcast_cancelled ud' = broadcast_cancelled ud
     ∨ broadcast_cancelled ud' = Some true).

(** The same without the statistics, which the loop itself rewrites. *)
Definition loop_step (ud ud' : user_data) : Prop :=
  broadcast_in_progress ud' = broadcast_in_progress ud
  ∧ (broadcast_cancelled ud' = broadcast_cancelled ud
     ∨ broadcast_cancelled ud' = Some true).

(** Updates from actors outside the allow-list only. *)
Definition outsiders_only : list update :=
  [Routed (BroadcastCommand stranger);
   Content calm stranger hello;
   Routed (ButtonPress stranger "cancel_broadcast");
   Routed (CancelCommand stranger);
   Content calm stranger hello;
   Routed (StatsCommand stranger)].

(** The effects that only a broadcast run produces. *)
Definition run_effect (e : effect) : bool :=
  match e with
  | ESendMessage _ _ | ESendPhoto _ _ _ | ESendVideo _ _ _ => true
  | EProgressStart _ _ | EProgressEdit _ _ _ _ _ | EFinalEdit _ => true
  | EWriteJson BROADCASTS_FILE => true
  | _ => false
  end.

(** The state of an operator who has asked for a broadcast while the users
    file is empty. *)
Definition nobody_yet : world := broadcast operator fresh.

(** A broadcast command from [actor]. *)
Definition requests (actor : Z) (ev : event) : bool :=
  match ev with
  | BroadcastCommand a => bool_decide (a = actor)
  | _ => false
  end.

(** No broadcast command from [actor] is handled during the run. *)
Definition never_requested (actor : Z) (env : run_env) : Prop :=
  Forall (fun ev => requests actor ev = false) (during_start env)
  ∧ Forall (fun ev => requests actor ev = false) (during_final_edit env)
  ∧ ∀ i, Forall (fun ev => requests actor ev = false)
                (during_send (deliveries env i))
         ∧ Forall (fun ev => requests actor ev = false)
                  (during_edit (deliveries env i)).

(** Carol asks to join the lobby. *)
Definition carol_joins : join_request :=
  mk_jr 13 (Some "carol") (Some "Carol") (Some "C") (-1001) (Some "Lobby").
Definition approved : approve_env := mk_approve_env true false "t1" "t2".

(** A disk on which only the users file exists. *)
Definition only_users_file : gmap string (list nat) :=
  {["users.json" := [7%nat]]}.

(* ===================================================================== *)
(** ** The dispatcher of [main], and what a message holds *)
(* ===================================================================== *)

(** The [Application] of [main] is built with no concurrent updates and its
    handlers block: an update is handled only when the handler of the
    previous one has returned.  The environments of the program are those
    in which nothing is handled during an await. *)
Definition one_at_a_time (env : run_env) : Prop :=
  during_start env = []
  ∧ during_final_edit env = []
  ∧ ∀ i, during_send (deliveries env i) = []
         ∧ during_edit (deliveries env i) = [].

(** The content kind of a platform call of the delivery loop. *)
Definition kind_of_call (e : effect) : string :=
  match e with
  | ESendMessage _ _ => "text"
  | ESendPhoto _ _ _ => "photo"
  | ESendVideo _ _ _ => "video"
  | _ => ""
  end.

(** A message with a text carries no photo and no video: the platform puts
    what is written under a photo or a video into the caption. *)
Definition text_excludes_media (m : message) : Prop :=
  truthy (msg_text m) = true → msg_photo m = [] ∧ msg_video m = None.

(** After the run the progress indicator shows the terminal message with
    [N]: the run has issued that edit, and no other terminal edit, and the
    platform has accepted it. *)
Definition indicator_replaced (env : run_env) (w w' : world) (N : Z) : Prop :=
  final_edit_ok env = true
  ∧ List.filter is_final_edit (trace w')
    = List.filter is_final_edit (trace w) ++ [EFinalEdit N].

(** A photo with a caption, in two sizes. *)
Definition holiday_photo : message :=
  mk_message None "" ["small"; "large"] None (Some "Beach") "Beach".

(** The operator's state when a new broadcast is requested after the Cancel
    button of a finished run was pressed. *)
Definition after_late_press : world :=
  run_updates
    [Routed (BroadcastCommand operator);
     Content calm operator hello;
     Routed (ButtonPress operator "cancel_broadcast");
     Routed (BroadcastCommand operator)]
    two_users.

(* ===================================================================== *)
(** ** Properties of the stores *)
(* ===================================================================== *)

Section Stores.

Implicit Types (w : world) (u : user) (users : list user).

Lemma scan_users_found uid cid users :
  fst (scan_users uid cid users) = existsb (fun u => user_id u =? uid) users.
Proof.
  induction users as [|u rest IH]; simpl; [done|].
  destruct (user_id u =? uid); simpl; auto.
Qed.

Lemma add_channel_id cid u : user_id (add_channel cid u) = user_id u.
Proof. unfold add_channel. by case_decide. Qed.

Lemma add_channel_has cid u : cid ∈ approved_channels (add_channel cid u).
Proof.
  unfold add_channel. case_decide; simpl; [done|].
  apply elem_of_app. right. by apply list_elem_of_singleton.
Qed.

Lemma add_channel_again cid u :
  add_channel cid (add_channel cid u) = add_channel cid u.
Proof.
  pose proof (add_channel_has cid u) as Hin.
  unfold add_channel at 1. by case_decide.
Qed.

Lemma add_channel_NoDup cid u :
  NoDup (approved_channels u) → NoDup (approved_channels (add_channel cid u)).
Proof.
  intros Hnd. unfold add_channel. case_decide; simpl; [done|].
  apply NoDup_app. split; [done|]. split.
  - intros x Hx Hx'. apply list_elem_of_singleton in Hx'. by subst.
  - apply NoDup_singleton.
Qed.

Lemma scan_users_ids uid cid users :
  map user_id (snd (scan_users uid cid users)) = map user_id users.
Proof.
  induction users as [|u rest IH]; simpl; [done|].
  destruct (user_id u =? uid); simpl.
  - by rewrite add_channel_id.
  - by rewrite IH.
Qed.

Lemma scan_users_again uid cid users :
  fst (scan_users uid cid users) = true →
  scan_users uid cid (snd (scan_users uid cid users))
  = (true, snd (scan_users uid cid users)).
Proof.
  induction users as [|u rest IH]; simpl; [done|].
  destruct (user_id u =? uid) eqn:E; simpl.
  - intros _. rewrite add_channel_id, E. by rewrite add_channel_again.
  - intros H. rewrite E. by rewrite (IH H).
Qed.

Lemma scan_users_missing uid cid users :
  fst (scan_users uid cid users) = false →
  snd (scan_users uid cid users) = users.
Proof.
  induction users as [|u rest IH]; simpl; [done|].
  destruct (user_id u =? uid); simpl; [done|].
  intros H. by rewrite (IH H).
Qed.

Lemma scan_users_snoc uid cid users u :
  fst (scan_users uid cid users) = false →
  user_id u = uid →
  scan_users uid cid (users ++ [u]) = (true, users ++ [add_channel cid u]).
Proof.
  induction users as [|v rest IH]; simpl.
  - intros _ ->. by rewrite Z.eqb_refl.
  - destruct (user_id v =? uid); simpl; [done|].
    intros H Hu. by rewrite (IH H Hu).
Qed.

Lemma save_user_users t1 t2 uid un fn ln cid ct w :
  users_db (save_user t1 t2 uid un fn ln cid ct w)
  = saved_users t1 uid un fn ln cid (users_db w).
Proof.
  unfold save_user, saved_users. simpl.
  by destruct (channel_exists cid (channels_db w)).
Qed.

Lemma save_user_channels t1 t2 uid un fn ln cid ct w :
  channels_db (save_user t1 t2 uid un fn ln cid ct w)
  = saved_channels t2 cid ct (channels_db w).
Proof.
  unfold save_user, saved_channels. simpl.
  by destruct (channel_exists cid (channels_db w)).
Qed.

Lemma save_user_trace t1 t2 uid un fn ln cid ct w :
  trace (save_user t1 t2 uid un fn ln cid ct w)
  = trace w ++ EWriteJson USERS_FILE ::
      (if channel_exists cid (channels_db w) then []
       else [EWriteJson CHANNELS_FILE]).
Proof.
  unfold save_user. simpl.
  destruct (channel_exists cid (channels_db w)); simpl; [done|].
  by rewrite <- app_assoc.
Qed.

Lemma save_user_other t1 t2 uid un fn ln cid ct w :
  broadcasts_db (save_user t1 t2 uid un fn ln cid ct w) = broadcasts_db w
  ∧ sessions (save_user t1 t2 uid un fn ln cid ct w) = sessions w.
Proof.
  unfold save_user. simpl.
  by destruct (channel_exists cid (channels_db w)).
Qed.

(** Saving finds its own record on the next scan. *)
Lemma saved_users_again t1 t1' uid un fn ln un' fn' ln' cid users :
  saved_users t1' uid un' fn' ln' cid (saved_users t1 uid un fn ln cid users)
  = saved_users t1 uid un fn ln cid users.
Proof.
  unfold saved_users.
  destruct (fst (scan_users uid cid users)) eqn:E.
  - by rewrite (scan_users_again _ _ _ E).
  - rewrite (scan_users_missing _ _ _ E).
    rewrite (scan_users_snoc uid cid users (mk_user uid un fn ln t1 [cid]) E eq_refl).
    simpl.
    unfold add_channel. simpl. rewrite decide_True; [done|].
    by apply list_elem_of_singleton.
Qed.

Lemma channel_exists_spec cid (channels : list channel) :
  channel_exists cid channels = true ↔ cid ∈ map channel_id channels.
Proof.
  unfold channel_exists. rewrite existsb_exists, list_elem_of_In, in_map_iff.
  split; intros (c & H1 & H2); exists c.
  - apply Z.eqb_eq in H2. done.
  - split; [tauto|]. apply Z.eqb_eq. tauto.
Qed.

Lemma saved_channels_has t2 cid ct (channels : list channel) :
  channel_exists cid (saved_channels t2 cid ct channels) = true.
Proof.
  unfold saved_channels.
  destruct (channel_exists cid channels) eqn:E; [done|].
  unfold channel_exists. rewrite existsb_app. simpl.
  rewrite Z.eqb_refl. by rewrite orb_true_r.
Qed.

Lemma saved_channels_again t2 t2' cid ct ct' (channels : list channel) :
  saved_channels t2' cid ct' (saved_channels t2 cid ct channels)
  = saved_channels t2 cid ct channels.
Proof.
  unfold saved_channels at 1. by rewrite saved_channels_has.
Qed.

Lemma scan_users_NoDup uid cid users :
  Forall (fun u => NoDup (approved_channels u)) users →
  Forall (fun u => NoDup (approved_channels u)) (snd (scan_users uid cid users)).
Proof.
  induction 1 as [|u rest Hu Hrest IH]; simpl; [constructor|].
  destruct (user_id u =? uid); simpl; constructor; auto.
  by apply add_channel_NoDup.
Qed.

Lemma existsb_user_spec uid users :
  existsb (fun u => user_id u =? uid) users = true ↔ uid ∈ map user_id users.
Proof.
  rewrite existsb_exists, list_elem_of_In, in_map_iff.
  split; intros (c & H1 & H2); exists c.
  - apply Z.eqb_eq in H2. done.
  - split; [tauto|]. apply Z.eqb_eq. tauto.
Qed.

Lemma saved_users_ok t1 uid un fn ln cid users :
  NoDup (map user_id users) →
  Forall (fun u => NoDup (approved_channels u)) users →
  NoDup (map user_id (saved_users t1 uid un fn ln cid users))
  ∧ Forall (fun u => NoDup (approved_channels u))
           (saved_users t1 uid un fn ln cid users).
Proof.
  intros Hids Hch. unfold saved_users.
  destruct (fst (scan_users uid cid users)) eqn:E.
  - rewrite scan_users_ids. split; [done|]. by apply scan_users_NoDup.
  - rewrite (scan_users_missing _ _ _ E). split.
    + rewrite map_app. simpl. apply NoDup_app. split; [done|]. split.
      * intros x Hx Hx'. apply list_elem_of_singleton in Hx'. subst x.
        apply existsb_user_spec in Hx.
        rewrite <- (scan_users_found uid cid) in Hx.
        congruence.
      * apply NoDup_singleton.
    + apply Forall_app. split; [done|]. constructor; [|constructor].
      simpl. apply NoDup_singleton.
Qed.

Lemma saved_channels_ok t2 cid ct (channels : list channel) :
  NoDup (map channel_id channels) →
  NoDup (map channel_id (saved_channels t2 cid ct channels)).
Proof.
  intros Hnd. unfold saved_channels.
  destruct (channel_exists cid channels) eqn:E; [done|].
  rewrite map_app. simpl. apply NoDup_app. split; [done|]. split.
  - intros x Hx Hx'. apply list_elem_of_singleton in Hx'. subst x.
    apply channel_exists_spec in Hx. congruence.
  - apply NoDup_singleton.
Qed.

(** [save_user] keeps the invariant, and the empty files that
    [init_data_files] creates satisfy it. *)
Lemma save_user_store_ok t1 t2 uid un fn ln cid ct w :
  store_ok w → store_ok (save_user t1 t2 uid un fn ln cid ct w).
Proof.
  intros (H1 & H2 & H3). unfold store_ok.
  rewrite save_user_users, save_user_channels.
  destruct (saved_users_ok t1 uid un fn ln cid _ H1 H2).
  split; [done|]. split; [done|]. by apply saved_channels_ok.
Qed.

Lemma empty_store_ok sess tr : store_ok (mk_world [] [] [] sess tr).
Proof. repeat split; simpl; constructor. Qed.

Lemma saved_users_has t1 uid un fn ln cid users :
  ∃ u, u ∈ saved_users t1 uid un fn ln cid users
       ∧ user_id u = uid ∧ cid ∈ approved_channels u.
Proof.
  unfold saved_users.
  destruct (fst (scan_users uid cid users)) eqn:E.
  - clear un fn ln t1. induction users as [|v rest IH]; simpl in *; [done|].
    destruct (user_id v =? uid) eqn:Ev; simpl in *.
    + exists (add_channel cid v). split; [apply list_elem_of_here|].
      rewrite add_channel_id. split; [by apply Z.eqb_eq|].
      apply add_channel_has.
    + destruct (IH E) as (u & Hu & Hid & Hc). exists u.
      split; [by apply list_elem_of_further|done].
  - eexists. split; [apply elem_of_app; right; apply list_elem_of_here|].
    simpl. split; [done|]. apply list_elem_of_here.
Qed.

Lemma filter_none {A} (p : A → bool) (l : list A) :
  (∀ z, z ∈ l → p z = false) → List.filter p l = [].
Proof.
  induction l as [|y l IH]; simpl; intros H; [done|].
  rewrite (H y (list_elem_of_here _ _)). apply IH.
  intros z Hz. apply H. by apply list_elem_of_further.
Qed.

Lemma filter_unique {A} (f : A → Z) (k : Z) (x : A) (l : list A) :
  NoDup (map f l) → x ∈ l → f x = k →
  List.filter (fun y => f y =? k) l = [x].
Proof.
  induction l as [|y l IH]; simpl; intros Hnd Hin Hk.
  - by apply elem_of_nil in Hin.
  - apply NoDup_cons in Hnd as [Hy Hnd].
    apply elem_of_cons in Hin as [->|Hin].
    + rewrite Hk, Z.eqb_refl. f_equal.
      apply filter_none. intros z Hz. apply Z.eqb_neq. intros Hzk.
      apply Hy. subst k. rewrite <- Hzk.
      apply list_elem_of_In, in_map, list_elem_of_In. done.
    + destruct (f y =? k) eqn:E.
      * apply Z.eqb_eq in E. exfalso. apply Hy. rewrite E, <- Hk.
        apply list_elem_of_In, in_map, list_elem_of_In. done.
      * by apply IH.
Qed.

End Stores.

Section StoreClaims.

Implicit Types (w : world) (u : user) (users : list user).

Lemma add_channel_frame cid u :
  user_id (add_channel cid u) = user_id u
  ∧ username (add_channel cid u) = username u
  ∧ first_name (add_channel cid u) = first_name u
  ∧ last_name (add_channel cid u) = last_name u
  ∧ join_date (add_channel cid u) = join_date u
  ∧ (approved_channels (add_channel cid u) = approved_channels u
     ∨ approved_channels (add_channel cid u) = approved_channels u ++ [cid]).
Proof. unfold add_channel. case_decide; simpl; auto 10. Qed.

Lemma scan_users_frame uid cid users (i : nat) u :
  users !! i = Some u →
  ∃ u', snd (scan_users uid cid users) !! i = Some u'
        ∧ user_id u' = user_id u ∧ username u' = username u
        ∧ first_name u' = first_name u ∧ last_name u' = last_name u
        ∧ join_date u' = join_date u
        ∧ (approved_channels u' = approved_channels u
           ∨ (user_id u = uid
              ∧ approved_channels u' = approved_channels u ++ [cid])).
Proof.
  revert i. induction users as [|v rest IH]; intros i Hi; [done|].
  simpl. destruct (user_id v =? uid) eqn:E; simpl.
  - destruct i as [|i]; simpl in *.
    + injection Hi as ->. exists (add_channel cid u).
      destruct (add_channel_frame cid u) as (?&?&?&?&?&[?|?]).
      * auto 10.
      * apply Z.eqb_eq in E. auto 12.
    + exists u. auto 10.
  - destruct i as [|i]; simpl in *.
    + injection Hi as ->. exists u. auto 10.
    + by apply IH.
Qed.

(** C7. Recording the same approval twice is idempotent: on stores that
    satisfy their invariant, a second [save_user] for the same user and
    channel changes neither store, the users file holds exactly one record
    of that user, that record lists the channel exactly once, and the
    channels file holds exactly one record of that channel. *)
Theorem save_user_idempotent
    t1 t2 t1' t2' uid un fn ln un' fn' ln' cid ct ct' w :
  store_ok w →
  let w1 := save_user t1 t2 uid un fn ln cid ct w in
  let w2 := save_user t1' t2' uid un' fn' ln' cid ct' w1 in
  users_db w2 = users_db w1
  ∧ channels_db w2 = channels_db w1
  ∧ (∃ u, List.filter (fun r => user_id r =? uid) (users_db w2) = [u]
          ∧ count_occ Z.eq_dec (approved_channels u) cid = 1%nat)
  ∧ (∃ c, List.filter (fun r => channel_id r =? cid) (channels_db w2) = [c]).
Proof.
  intros Hok w1 w2.
  assert (Hu : users_db w2 = users_db w1).
  { unfold w2, w1. rewrite !save_user_users. apply saved_users_again. }
  assert (Hc : channels_db w2 = channels_db w1).
  { unfold w2, w1. rewrite !save_user_channels. apply saved_channels_again. }
  pose proof (save_user_store_ok t1 t2 uid un fn ln cid ct w Hok)
    as (Hids & Happ & Hchan).
  fold w1 in Hids, Happ, Hchan.
  split; [done|]. split; [done|]. rewrite Hu, Hc. split.
  - unfold w1. rewrite save_user_users.
    destruct (saved_users_has t1 uid un fn ln cid (users_db w))
      as (u & Hin & Hid & Hcid).
    exists u. split.
    + apply (filter_unique user_id); [|done|done].
      unfold w1 in Hids. by rewrite save_user_users in Hids.
    + unfold w1 in Happ. rewrite save_user_users in Happ.
      rewrite Forall_forall in Happ.
      apply NoDup_count_occ'; [by apply NoDup_ListNoDup, Happ|by apply list_elem_of_In].
  - pose proof (saved_channels_has t2 cid ct (channels_db w)) as Hex.
    unfold w1. rewrite save_user_channels.
    apply channel_exists_spec in Hex.
    apply list_elem_of_In, in_map_iff in Hex as (c & Hcid & Hin).
    exists c. apply (filter_unique channel_id); [|by apply list_elem_of_In|done].
    unfold w1 in Hchan. by rewrite save_user_channels in Hchan.
Qed.

Lemma small_NoDup (l : list Z) : bool_decide (NoDup l) = true → NoDup l.
Proof. intros H. by apply bool_decide_eq_true in H. Defined.

Lemma two_users_ok : store_ok two_users.
Proof.
  unfold store_ok, two_users. simpl. split; [|split].
  - by apply small_NoDup.
  - apply Forall_cons; split; [by apply small_NoDup|].
    apply Forall_cons; split; [by apply small_NoDup|]. apply Forall_nil_2.
  - by apply small_NoDup.
Defined.

Lemma save_user_idempotent_witness :
  let w1 := save_user "t1" "t2" 11 "alice" "Alice" "A" (-1002) "News"
              two_users in
  let w2 := save_user "t3" "t4" 11 "al" "Al" "" (-1002) "Newer" w1 in
  users_db w2 = users_db w1
  ∧ channels_db w2 = channels_db w1
  ∧ (∃ u, List.filter (fun r => user_id r =? 11) (users_db w2) = [u]
          ∧ count_occ Z.eq_dec (approved_channels u) (-1002) = 1%nat)
  ∧ (∃ c, List.filter (fun r => channel_id r =? -1002) (channels_db w2) = [c]).
Proof.
  exact (save_user_idempotent "t1" "t2" "t3" "t4" 11 "alice" "Alice" "A"
           "al" "Al" "" (-1002) "News" "Newer" two_users two_users_ok).
Defined.

(** C10. When the user is already recorded, [save_user] leaves every stored
    record's identity, username, first name, last name and first-seen
    timestamp as they were; the only change a record can see is the new
    channel appended to the approved list of a record of that user.  When
    the channel is already recorded, the channels file keeps its content and
    is not written: the only write is that of the users file. *)
Theorem save_user_frame t1 t2 uid un fn ln cid ct w :
  let w' := save_user t1 t2 uid un fn ln cid ct w in
  (uid ∈ map user_id (users_db w) →
     length (users_db w') = length (users_db w)
     ∧ ∀ (i : nat) u, users_db w !! i = Some u →
         ∃ u', users_db w' !! i = Some u'
               ∧ user_id u' = user_id u ∧ username u' = username u
               ∧ first_name u' = first_name u ∧ last_name u' = last_name u
               ∧ join_date u' = join_date u
               ∧ (approved_channels u' = approved_channels u
                  ∨ (user_id u = uid
                     ∧ approved_channels u' = approved_channels u ++ [cid])))
  ∧ (cid ∈ map channel_id (channels_db w) →
     channels_db w' = channels_db w
     ∧ trace w' = trace w ++ [EWriteJson USERS_FILE]).
Proof.
  intros w'. split.
  - intros Hin. apply existsb_user_spec in Hin.
    rewrite <- (scan_users_found uid cid) in Hin.
    unfold w'. rewrite save_user_users. unfold saved_users. rewrite Hin.
    split.
    + rewrite <- (length_map user_id), scan_users_ids. apply length_map.
    + intros i u Hi. by apply scan_users_frame.
  - intros Hin. apply channel_exists_spec in Hin.
    unfold w'. rewrite save_user_channels, save_user_trace.
    unfold saved_channels. by rewrite Hin.
Qed.

Lemma save_user_frame_witness :
  let w' := save_user "t1" "t2" 12 "robert" "Rob" "R" (-1002) "Lobby 2"
              (mk_world [alice; bob] [lobby; mk_channel (-1002) "News" "" ""]
                        [] ∅ []) in
  (length (users_db w') = 2%nat
   ∧ ∃ u', users_db w' !! 1%nat = Some u'
           ∧ user_id u' = 12 ∧ username u' = "bob"
           ∧ first_name u' = "Bob" ∧ last_name u' = "B"
           ∧ join_date u' = "2024-01-02"
           ∧ (approved_channels u' = [-1001]
              ∨ (12 = 12 ∧ approved_channels u' = [-1001] ++ [-1002])))
  ∧ (channels_db w' = [lobby; mk_channel (-1002) "News" "" ""]
     ∧ trace w' = [] ++ [EWriteJson USERS_FILE]).
Proof.
  intros w'.
  destruct (save_user_frame "t1" "t2" 12 "robert" "Rob" "R" (-1002) "Lobby 2"
              (mk_world [alice; bob] [lobby; mk_channel (-1002) "News" "" ""]
                        [] ∅ [])) as [Hu Hc].
  split.
  - destruct Hu as [Hlen Hrec].
    { apply list_elem_of_further, list_elem_of_here. }
    split; [exact Hlen|]. exact (Hrec 1%nat bob eq_refl).
  - apply Hc. apply list_elem_of_further, list_elem_of_here.
Defined.

End StoreClaims.

(* ===================================================================== *)
(** ** The approval handler *)
(* ===================================================================== *)

Section Approval.

Lemma approve_user_frame env jr w :
  broadcasts_db (approve_user env jr w) = broadcasts_db w
  ∧ sessions (approve_user env jr w) = sessions w
  ∧ ∃ t, trace (approve_user env jr w) = trace w ++ t
         ∧ Forall (fun e => chatter e = true) t.
Proof.
  unfold approve_user. cbv zeta. destruct (approve_ok env).
  - match goal with
    | |- context [save_user ?a ?b ?c ?d ?e ?f ?g ?h ?w1] =>
        set (w2 := save_user a b c d e f g h w1);
        pose proof (save_user_trace a b c d e f g h w1) as Ht;
        pose proof (save_user_other a b c d e f g h w1) as [Hb Hs]
    end.
    fold w2 in Ht, Hb, Hs. simpl in Ht, Hb, Hs.
    destruct (notify_ok env); cbn [emit broadcasts_db sessions trace];
      rewrite Hb, Hs, Ht; (split; [done|]); (split; [done|]);
      rewrite <- !app_assoc; (eexists; split; [done|]);
      destruct (channel_exists _ _); by repeat constructor.
  - simpl. split; [done|]. split; [done|]. rewrite <- app_assoc.
    eexists. split; [done|]. by repeat constructor.
Qed.

(** C6. A failed approve call writes nothing and attempts no notification:
    the stores and sessions are untouched and the only effects are the call
    and its log entry.  A successful one first persists the user and the
    channel and only then attempts the notification; the persisted stores do
    not depend on whether that notification succeeds. *)
Theorem approve_user_coupling env jr w :
  let uid := from_user_id jr in
  let cid := chat_id jr in
  let ctitle := or_else (chat_title jr) ("Channel " +:+ pretty cid) in
  let w' := approve_user env jr w in
  broadcasts_db w' = broadcasts_db w ∧ sessions w' = sessions w
  ∧ (approve_ok env = false →
       users_db w' = users_db w ∧ channels_db w' = channels_db w
       ∧ trace w' = trace w ++ [EApprove uid cid; ELog LogApproving])
  ∧ (approve_ok env = true →
       users_db w'
       = saved_users (now_user env) uid
           (or_else (from_username jr) "No username")
           (or_else (from_first_name jr) "") (or_else (from_last_name jr) "")
           cid (users_db w)
       ∧ channels_db w'
         = saved_channels (now_channel env) cid ctitle (channels_db w)
       ∧ trace w'
         = trace w
           ++ [EApprove uid cid; ELog LogApproved; EWriteJson USERS_FILE]
           ++ (if channel_exists cid (channels_db w) then []
               else [EWriteJson CHANNELS_FILE])
           ++ ENotify uid ctitle
              :: (if notify_ok env then [] else [ELog LogNotification])).
Proof.
  intros uid cid ctitle w'. unfold w', approve_user. fold uid cid ctitle.
  destruct (approve_ok env) eqn:Ha.
  - set (w1 := emit (ELog LogApproved) (emit (EApprove uid cid) w)).
    match goal with
    | |- context [save_user ?a ?b ?c ?d ?e ?f ?g ?h w1] =>
        set (w2 := save_user a b c d e f g h w1);
        pose proof (save_user_users a b c d e f g h w1) as Hu;
        pose proof (save_user_channels a b c d e f g h w1) as Hc;
        pose proof (save_user_trace a b c d e f g h w1) as Ht;
        pose proof (save_user_other a b c d e f g h w1) as [Hb Hs]
    end.
    fold w2 in Hu, Hc, Ht, Hb, Hs. simpl in Hu, Hc, Ht, Hb, Hs.
    assert (Hall :
      ∀ w3, w3 = (if notify_ok env then emit (ENotify uid ctitle) w2
                  else emit (ELog LogNotification)
                         (emit (ENotify uid ctitle) w2)) →
      users_db w3 = users_db w2 ∧ channels_db w3 = channels_db w2
      ∧ broadcasts_db w3 = broadcasts_db w2 ∧ sessions w3 = sessions w2
      ∧ trace w3 = trace w2 ++ ENotify uid ctitle ::
                     (if notify_ok env then [] else [ELog LogNotification])).
    { intros w3 ->. destruct (notify_ok env); simpl; repeat split; try done.
      by rewrite <- app_assoc. }
    destruct (Hall _ eq_refl) as (E1 & E2 & E3 & E4 & E5).
    split; [by rewrite E3|]. split; [by rewrite E4|]. split; [done|].
    intros _. split; [by rewrite E1|]. split; [by rewrite E2|].
    rewrite E5, Ht. rewrite <- !app_assoc. simpl. done.
  - simpl. split; [done|]. split; [done|]. split; [|done].
    intros _. split; [done|]. split; [done|]. by rewrite <- app_assoc.
Qed.

Lemma approve_user_coupling_witness :
  (let w' := approve_user (mk_approve_env false true "t1" "t2")
               (mk_jr 13 (Some "carol") None None (-1002) (Some "News"))
               two_users in
   users_db w' = users_db two_users ∧ channels_db w' = channels_db two_users
   ∧ trace w' = [EApprove 13 (-1002); ELog LogApproving])
  ∧ (let w' := approve_user (mk_approve_env true false "t1" "t2")
                 (mk_jr 13 (Some "carol") None None (-1002) (Some "News"))
                 two_users in
     users_db w' = [alice; bob; mk_user 13 "carol" "" "" "t1" [-1002]]
     ∧ channels_db w'
       = [lobby; mk_channel (-1002) "News" "channel_-1002" "t2"]
     ∧ trace w' = [EApprove 13 (-1002); ELog LogApproved;
                   EWriteJson USERS_FILE; EWriteJson CHANNELS_FILE;
                   ENotify 13 "News"; ELog LogNotification]).
Proof.
  split.
  - exact (proj1 (proj2 (proj2
      (approve_user_coupling (mk_approve_env false true "t1" "t2")
         (mk_jr 13 (Some "carol") None None (-1002) (Some "News"))
         two_users))) eq_refl).
  - exact (proj2 (proj2 (proj2
      (approve_user_coupling (mk_approve_env true false "t1" "t2")
         (mk_jr 13 (Some "carol") None None (-1002) (Some "News"))
         two_users))) eq_refl).
Defined.

End Approval.

(* ===================================================================== *)
(** ** The failure classifier *)
(* ===================================================================== *)

Section Classifier.

Lemma prefix_spec p s : String.prefix p s = true ↔ ∃ post, s = p +:+ post.
Proof.
  revert s. induction p as [|a p IH]; intros s; simpl.
  - destruct s; split; eauto.
  - destruct s as [|b s]; simpl.
    + split; [done|]. intros [post H]. discriminate.
    + destruct (ascii_dec a b) as [->|Hne].
      * rewrite IH. split; intros [post H]; exists post.
        -- by rewrite H.
        -- by injection H.
      * split; [done|]. intros [post H]. injection H. intros _ Hb. done.
Qed.

Lemma contains_spec sub s : contains sub s = true ↔ substring sub s.
Proof.
  unfold substring. induction s as [|c s IH]; cbn [contains].
  - rewrite orb_false_r, prefix_spec. split.
    + intros [post H]. by exists "", post.
    + intros (pre & post & H). destruct pre; simpl in H; [by exists post|done].
  - rewrite orb_true_iff, prefix_spec, IH. split.
    + intros [[post H]|(pre & post & H)].
      * by exists "", post.
      * exists (String c pre), post. simpl. by rewrite H.
    + intros (pre & post & H). destruct pre as [|c' pre]; simpl in H.
      * left. by exists post.
      * right. exists pre, post. by injection H.
Qed.

Lemma lower_app a b : lower (a +:+ b) = lower a +:+ lower b.
Proof. induction a as [|c a IH]; simpl; [done|]. by rewrite IH. Qed.

Lemma substring_lower word e :
  substring word e → substring (lower word) (lower e).
Proof.
  intros (pre & post & ->). exists (lower pre), (lower post).
  by rewrite !lower_app.
Qed.

(** C2. The classifier works on the lower-cased description and the first
    match wins: [Blocked] when it contains "blocked"; otherwise
    [DeletedAccount] when it contains "deleted" or "not found"; otherwise
    [Unsuccessful].  Hence a description that contains "blocked" in any
    letter case counts as [Blocked], whatever else it contains. *)
Theorem classify_first_match e :
  (substring "blocked" (lower e) → classify e = Blocked)
  ∧ (¬ substring "blocked" (lower e) →
     substring "deleted" (lower e) ∨ substring "not found" (lower e) →
     classify e = DeletedAccount)
  ∧ (¬ substring "blocked" (lower e) →
     ¬ substring "deleted" (lower e) → ¬ substring "not found" (lower e) →
     classify e = Unsuccessful)
  ∧ (∀ word, lower word = "blocked" → substring word e →
     classify e = Blocked).
Proof.
  assert (Hb : substring "blocked" (lower e) → classify e = Blocked).
  { intros H. apply contains_spec in H. unfold classify. by rewrite H. }
  split; [done|]. split; [|split].
  - intros Hnb Hd. unfold classify.
    destruct (contains "blocked" (lower e)) eqn:E.
    { apply contains_spec in E. done. }
    destruct Hd as [H|H]; apply contains_spec in H; rewrite H; simpl.
    + done.
    + by rewrite orb_true_r.
  - intros Hnb Hnd Hnf. unfold classify.
    destruct (contains "blocked" (lower e)) eqn:E1.
    { apply contains_spec in E1. done. }
    destruct (contains "deleted" (lower e)) eqn:E2.
    { apply contains_spec in E2. done. }
    destruct (contains "not found" (lower e)) eqn:E3.
    { apply contains_spec in E3. done. }
    done.
  - intros word Hw Hin. apply Hb. rewrite <- Hw. by apply substring_lower.
Qed.

Lemma not_substring sub s : contains sub s = false → ¬ substring sub s.
Proof. intros H Hs. apply contains_spec in Hs. congruence. Defined.

Lemma classify_first_match_witness :
  classify blocked_and_missing = Blocked
  ∧ classify account_deleted = DeletedAccount
  ∧ classify flood = Unsuccessful.
Proof.
  split; [|split].
  - apply (proj2 (proj2 (proj2 (classify_first_match blocked_and_missing)))
             "BLOCKED"); [reflexivity|].
    by exists "Forbidden: bot was ", " by the user (chat not found, deleted)".
  - apply (proj1 (proj2 (classify_first_match account_deleted))).
    + by apply not_substring.
    + left. by exists "forbidden: user is ", "".
  - apply (proj1 (proj2 (proj2 (classify_first_match flood))));
      by apply not_substring.
Defined.

End Classifier.

(* ===================================================================== *)
(** ** Sessions, events and what they leave alone *)
(* ===================================================================== *)

Section Sessions.

Implicit Types (w : world) (ev : event) (evs : list event).

Lemma session_update_same a f w :
  session (update_session a f w) a = f (session w a).
Proof. unfold session at 1. simpl. by rewrite lookup_insert_eq. Qed.

Lemma session_update_other a b f w :
  a ≠ b → session (update_session a f w) b = session w b.
Proof. intros H. unfold session. simpl. by rewrite lookup_insert_ne. Qed.

Lemma session_emit e w a : session (emit e w) a = session w a.
Proof. done. Qed.

Lemma show_broadcast_stats_emits a w :
  ∃ r, show_broadcast_stats a w = emit (EReply a r) w.
Proof. unfold show_broadcast_stats. destruct (broadcast_stats _); eauto. Qed.

Lemma show_broadcast_stats_broadcasts a w :
  broadcasts_db (show_broadcast_stats a w) = broadcasts_db w.
Proof. by destruct (show_broadcast_stats_emits a w) as [r ->]. Qed.

Lemma session_show_stats a w b :
  session (show_broadcast_stats a w) b = session w b.
Proof. by destruct (show_broadcast_stats_emits a w) as [r ->]. Qed.

Lemma stats_command_emits a w :
  ∃ r, stats_command a w = emit (EReply a r) w.
Proof.
  unfold stats_command. destruct (is_admin a); simpl; [|eauto].
  destruct (broadcasts_db w); eauto.
Qed.

Lemma session_same_sessions w w' a :
  sessions w' = sessions w → session w' a = session w a.
Proof. intros H. unfold session. by rewrite H. Qed.

(** An event leaves the broadcasts file alone. *)
Lemma handle_event_broadcasts w ev :
  broadcasts_db (handle_event w ev) = broadcasts_db w.
Proof.
  destruct ev as [env jr|a|a|a|a|a data]; simpl.
  - apply approve_user_frame.
  - done.
  - unfold broadcast. by destruct (is_admin a).
  - by destruct (stats_command_emits a w) as [r ->].
  - unfold cancel_broadcast. repeat case_bool_decide.
    + by rewrite show_broadcast_stats_broadcasts.
    + done.
    + done.
  - unfold button_handler. by case_decide.
Qed.

Lemma run_events_broadcasts evs w :
  broadcasts_db (run_events evs w) = broadcasts_db w.
Proof.
  revert w. induction evs as [|ev evs IH]; intros w; simpl; [done|].
  rewrite IH. apply handle_event_broadcasts.
Qed.

Ltac only_chatter :=
  simpl; rewrite <- ?app_assoc; eexists; split; [reflexivity|];
  by repeat constructor.

(** An event adds only effects of its own kind: replies, query answers,
    button edits, and what an approval does. *)
Lemma handle_event_trace w ev :
  ∃ t, trace (handle_event w ev) = trace w ++ t
       ∧ Forall (fun e => chatter e = true) t.
Proof.
  destruct ev as [env jr|a|a|a|a|a data]; simpl.
  - apply approve_user_frame.
  - only_chatter.
  - unfold broadcast. destruct (is_admin a); only_chatter.
  - destruct (stats_command_emits a w) as [r ->]. only_chatter.
  - unfold cancel_broadcast. repeat case_bool_decide.
    + destruct (show_broadcast_stats_emits a
        (emit (EReply a CancelledPartialResults)
           (update_session a (set_cancelled (Some true)) w))) as [r ->].
      only_chatter.
    + only_chatter.
    + only_chatter.
  - unfold button_handler. case_decide; only_chatter.
Qed.

Lemma run_events_trace evs w :
  ∃ t, trace (run_events evs w) = trace w ++ t
       ∧ Forall (fun e => chatter e = true) t.
Proof.
  revert w. induction evs as [|ev evs IH]; intros w; simpl.
  - exists []. by rewrite app_nil_r.
  - destruct (IH (handle_event w ev)) as (t2 & -> & H2).
    destruct (handle_event_trace w ev) as (t1 & -> & H1).
    exists (t1 ++ t2). rewrite app_assoc. split; [done|].
    by apply Forall_app.
Qed.

Lemma filter_chatter (p : effect → bool) (t : list effect) :
  (∀ e, chatter e = true → p e = false) →
  Forall (fun e => chatter e = true) t → List.filter p t = [].
Proof.
  intros Hp Ht. apply filter_none. intros e He. apply Hp.
  rewrite Forall_forall in Ht. by apply Ht.
Qed.

Lemma run_events_filter (p : effect → bool) evs w :
  (∀ e, chatter e = true → p e = false) →
  List.filter p (trace (run_events evs w)) = List.filter p (trace w).
Proof.
  intros Hp. destruct (run_events_trace evs w) as (t & -> & Ht).
  rewrite List.filter_app, (filter_chatter p t Hp Ht). apply app_nil_r.
Qed.

(** An event that is not a cancellation by [actor] leaves that actor's
    cancellation flag as it was. *)
Lemma handle_event_flag actor w ev :
  cancels actor ev = false →
  broadcast_cancelled (session (handle_event w ev) actor)
  = broadcast_cancelled (session w actor).
Proof.
  destruct ev as [env jr|a|a|a|a|a data]; simpl; intros Hc.
  - f_equal. apply session_same_sessions, approve_user_frame.
  - done.
  - unfold broadcast. destruct (is_admin a); [|done]. simpl.
    destruct (decide (a = actor)) as [->|Hne].
    + by rewrite session_update_same.
    + by rewrite session_update_other.
  - by destruct (stats_command_emits a w) as [r ->].
  - apply bool_decide_eq_false in Hc.
    unfold cancel_broadcast. repeat case_bool_decide.
    + rewrite session_show_stats, session_emit.
      by rewrite session_update_other.
    + rewrite session_emit. by rewrite session_update_other.
    + done.
  - unfold button_handler. cbv zeta.
    destruct (decide (data = "cancel_broadcast")) as [Hd|Hd]; [|reflexivity].
    rewrite session_emit. destruct (decide (a = actor)) as [->|Hne].
    + rewrite bool_decide_eq_true_2 in Hc; [|done].
      rewrite bool_decide_eq_true_2 in Hc; done.
    + by rewrite session_update_other.
Qed.

Lemma run_events_flag actor evs w :
  Forall (fun ev => cancels actor ev = false) evs →
  broadcast_cancelled (session (run_events evs w) actor)
  = broadcast_cancelled (session w actor).
Proof.
  intros H. revert w. induction H as [|ev evs Hev Hevs IH]; intros w; simpl.
  - done.
  - rewrite IH. by apply handle_event_flag.
Qed.

End Sessions.

(* ===================================================================== *)
(** ** The delivery loop *)
(* ===================================================================== *)

Section Loop.

Implicit Types (w : world) (c : stats) (m : message) (d : delivery)
  (u : user) (users : list user) (p : effect → bool).

Lemma filter_emit p e w :
  List.filter p (trace (emit e w))
  = List.filter p (trace w) ++ List.filter p [e].
Proof. simpl. apply List.filter_app. Qed.

Lemma deliver_tally d m u c w : snd (deliver d m u c w) = tally d m u c.
Proof.
  unfold deliver, tally. destruct (dispatch m (user_id u)); [|done].
  by destruct (outcome d).
Qed.

Lemma tally_counted d m u c :
  counted (tally d m u c) = counted c + 1
  ∧ total_users (tally d m u c) = total_users c.
Proof.
  unfold tally, counted.
  destruct (dispatch m (user_id u)) as [call|];
    [destruct (outcome d) as [msg|]|];
    try (destruct (classify msg)); simpl; split; lia.
Qed.

Lemma deliver_broadcasts d m u c w :
  broadcasts_db (fst (deliver d m u c w)) = broadcasts_db w.
Proof.
  unfold deliver. destruct (dispatch m (user_id u)) as [call|]; [|done].
  destruct (outcome d); simpl; by rewrite run_events_broadcasts.
Qed.

Lemma deliver_filter p d m u c w :
  (∀ e, chatter e = true → p e = false) →
  List.filter p (trace (fst (deliver d m u c w)))
  = List.filter p (trace w) ++ List.filter p (deliver_effects d m u).
Proof.
  intros Hp. unfold deliver, deliver_effects.
  destruct (dispatch m (user_id u)) as [call|]; simpl.
  - destruct (outcome d); simpl.
    + rewrite List.filter_app, (run_events_filter p _ _ Hp).
      rewrite filter_emit. rewrite <- app_assoc.
      by rewrite <- List.filter_app.
    + by rewrite (run_events_filter p _ _ Hp), filter_emit.
  - by rewrite app_nil_r.
Qed.

Lemma publish_progress_broadcasts d actor i c w :
  broadcasts_db (publish_progress d actor i c w) = broadcasts_db w.
Proof.
  unfold publish_progress.
  destruct (edit_ok d); simpl; by rewrite run_events_broadcasts.
Qed.

Lemma publish_progress_filter p d actor i c w :
  (∀ e, chatter e = true → p e = false) →
  List.filter p (trace (publish_progress d actor i c w))
  = List.filter p (trace w) ++ List.filter p (progress_effects d i c).
Proof.
  intros Hp. unfold publish_progress, progress_effects.
  destruct (edit_ok d).
  - by rewrite (run_events_filter p _ _ Hp), filter_emit.
  - rewrite filter_emit, (run_events_filter p _ _ Hp), filter_emit.
    rewrite <- app_assoc. by rewrite <- List.filter_app.
Qed.

(** The counters account for every iteration that ran, and the loop stops
    early only with the cancellation flag set. *)
Lemma broadcast_loop_counts env actor m n users : ∀ i c w,
  let x := broadcast_loop env actor m n users i c w in
  counted (exit_stats x) - counted c = processed x - i
  ∧ i ≤ processed x ≤ i + Z.of_nat (length users)
  ∧ (stopped x = false → processed x = i + Z.of_nat (length users))
  ∧ (stopped x = true →
     processed x < i + Z.of_nat (length users)
     ∧ cancelled_at_exit actor x = true)
  ∧ total_users (exit_stats x) = total_users c.
Proof.
  induction users as [|u rest IH]; intros i c w; cbn [broadcast_loop].
  - simpl. repeat split; try lia; done.
  - destruct (get_flag (broadcast_cancelled (session w actor))) eqn:Hflag.
    + simpl. repeat split; try lia; try done.
    + rewrite deliver_tally.
      match goal with
      | |- context [broadcast_loop env actor m n rest (i + 1) ?c1 ?w1] =>
          specialize (IH (i + 1) c1 w1);
          set (x := broadcast_loop env actor m n rest (i + 1) c1 w1) in *
      end.
      destruct (tally_counted (env i) m u c) as [Hc Ht].
      cbv zeta in IH. destruct IH as (H1 & H2 & H3 & H4 & H5).
      cbv zeta. rewrite length_cons, Nat2Z.inj_succ.
      split; [lia|]. split; [lia|]. split; [intros H; specialize (H3 H); lia|].
      split; [|congruence].
      intros H. destruct (H4 H). split; [lia|done].
Qed.

Lemma broadcast_loop_broadcasts env actor m n users : ∀ i c w,
  broadcasts_db (exit_world (broadcast_loop env actor m n users i c w))
  = broadcasts_db w.
Proof.
  induction users as [|u rest IH]; intros i c w; cbn [broadcast_loop].
  - done.
  - destruct (get_flag (broadcast_cancelled (session w actor))); [done|].
    cbv zeta. rewrite IH.
    destruct (progress_due i n).
    + by rewrite publish_progress_broadcasts, deliver_broadcasts.
    + by rewrite deliver_broadcasts.
Qed.

(** Up to what interleaved handlers add, the trace of the loop is
    [engine_effects] over the iterations that ran. *)
Lemma broadcast_loop_filter p env actor m n users : ∀ i c w,
  (∀ e, chatter e = true → p e = false) →
  let x := broadcast_loop env actor m n users i c w in
  List.filter p (trace (exit_world x))
  = List.filter p (trace w)
    ++ List.filter p
         (engine_effects env m n users i c (Z.to_nat (processed x - i))).
Proof.
  induction users as [|u rest IH]; intros i c w Hp; cbn [broadcast_loop].
  - simpl. destruct (Z.to_nat (i - i)); simpl; by rewrite app_nil_r.
  - destruct (get_flag (broadcast_cancelled (session w actor))).
    + simpl. rewrite Z.sub_diag. simpl. by rewrite app_nil_r.
    + cbv zeta. rewrite deliver_tally.
      set (c' := tally (env i) m u c).
      set (w' := if progress_due i n
                 then publish_progress (env i) actor i c'
                        (fst (deliver (env i) m u c w))
                 else fst (deliver (env i) m u c w)).
      pose proof (IH (i + 1) c' w' Hp) as IH'.
      pose proof (broadcast_loop_counts env actor m n rest (i + 1) c' w')
        as Hcount.
      set (x := broadcast_loop env actor m n rest (i + 1) c' w') in *.
      cbv zeta in IH', Hcount. destruct Hcount as (_ & Hrange & _).
      rewrite IH'.
      replace (Z.to_nat (processed x - i))
        with (S (Z.to_nat (processed x - (i + 1)))) by lia.
      cbn [engine_effects]. rewrite !List.filter_app, !app_assoc.
      f_equal. rewrite <- app_assoc.
      assert (Hw : List.filter p (trace w')
                   = List.filter p (trace w)
                     ++ List.filter p (deliver_effects (env i) m u)
                     ++ List.filter p
                          (if progress_due i n
                           then progress_effects (env i) i c'
                           else [])).
      { unfold w'. destruct (progress_due i n).
        - rewrite (publish_progress_filter p _ _ _ _ _ Hp).
          rewrite (deliver_filter p _ _ _ _ _ Hp).
          by rewrite <- app_assoc.
        - rewrite (deliver_filter p _ _ _ _ _ Hp). simpl.
          by rewrite app_nil_r. }
      exact Hw.
Qed.

End Loop.

(* ===================================================================== *)
(** ** What the engine sends, republishes and writes *)
(* ===================================================================== *)

Section EngineEffects.

Implicit Types (w : world) (c : stats) (m : message) (d : delivery)
  (u : user) (users : list user) (p : effect → bool) (k : nat).

Lemma dispatch_is_send m chat call :
  dispatch m chat = Some call → is_send call = true ∧ send_target call = chat.
Proof.
  unfold dispatch. destruct (truthy (msg_text m)).
  { intros [= <-]. done. }
  destruct (last (msg_photo m)).
  { intros [= <-]. done. }
  destruct (msg_video m); [|done].
  intros [= <-]. done.
Qed.

Lemma deliver_effects_silent p d m u :
  (∀ e, loop_effect e = true → p e = false) →
  List.filter p (deliver_effects d m u) = [].
Proof.
  intros Hp. apply filter_none. intros e He. apply Hp.
  unfold deliver_effects in He.
  destruct (dispatch m (user_id u)) as [call|] eqn:E.
  - apply dispatch_is_send in E as [E _].
    apply elem_of_cons in He as [->|He].
    + by destruct call.
    + destruct (outcome d); [|by apply elem_of_nil in He].
      apply list_elem_of_singleton in He. by subst.
  - by apply elem_of_nil in He.
Qed.

Lemma progress_effects_silent p d i c :
  (∀ e, loop_effect e = true → p e = false) →
  List.filter p (progress_effects d i c) = [].
Proof.
  intros Hp. apply filter_none. intros e He. apply Hp.
  unfold progress_effects in He.
  apply elem_of_cons in He as [->|He]; [done|].
  destruct (edit_ok d); [by apply elem_of_nil in He|].
  apply list_elem_of_singleton in He. by subst.
Qed.

(** The loop writes no file and publishes no terminal message. *)
Lemma engine_effects_silent p env m n users : ∀ i c k,
  (∀ e, loop_effect e = true → p e = false) →
  List.filter p (engine_effects env m n users i c k) = [].
Proof.
  induction users as [|u rest IH]; intros i c k Hp; destruct k as [|k];
    cbn [engine_effects]; try done.
  rewrite !List.filter_app, (deliver_effects_silent p _ _ _ Hp).
  rewrite (IH _ _ _ Hp), app_nil_r. simpl.
  destruct (progress_due i n); [|done].
  by apply progress_effects_silent.
Qed.

Lemma deliver_effects_sends d m u :
  (∀ chat, is_Some (dispatch m chat)) →
  map send_target (List.filter is_send (deliver_effects d m u)) = [user_id u].
Proof.
  intros Hm. unfold deliver_effects.
  destruct (Hm (user_id u)) as [call E]. rewrite E.
  apply dispatch_is_send in E as [E1 E2]. simpl. rewrite E1. simpl.
  rewrite E2. by destruct (outcome d).
Qed.

Lemma progress_effects_sends d i c :
  List.filter is_send (progress_effects d i c) = [].
Proof. unfold progress_effects. by destruct (edit_ok d). Qed.

(** The recipients contacted are the first [k] of the snapshot, in order,
    once each. *)
Lemma engine_effects_sends env m n users : ∀ i c k,
  (∀ chat, is_Some (dispatch m chat)) →
  map send_target (List.filter is_send (engine_effects env m n users i c k))
  = map user_id (take k users).
Proof.
  induction users as [|u rest IH]; intros i c k Hm; destruct k as [|k];
    cbn [engine_effects]; try done.
  rewrite !List.filter_app, !map_app, (deliver_effects_sends _ _ _ Hm).
  rewrite (IH _ _ _ Hm). simpl. f_equal.
  destruct (progress_due i n); [|done].
  by rewrite progress_effects_sends.
Qed.

Lemma deliver_effects_progress d m u :
  List.filter is_progress_edit (deliver_effects d m u) = [].
Proof.
  unfold deliver_effects.
  destruct (dispatch m (user_id u)) as [call|] eqn:E; [|done].
  apply dispatch_is_send in E as [E _].
  destruct call; try done; by destruct (outcome d).
Qed.

Lemma progress_effects_progress d i c :
  List.filter is_progress_edit (progress_effects d i c)
  = [EProgressEdit (i + 1) (total_users c)
       (percentage (i + 1) (total_users c)) (successful c)
       (blocked c + deleted c + unsuccessful c)].
Proof. unfold progress_effects. by destruct (edit_ok d). Qed.

(** The progress indicator is republished after the recipients whose index
    is due, and after no other; every republication carries the number
    processed, the percentage computed from it, and counts that add up. *)
Lemma engine_effects_progress env m n users : ∀ i c k,
  (k ≤ length users)%nat →
  counted c = i →
  map edit_index
    (List.filter is_progress_edit (engine_effects env m n users i c k))
  = List.filter (fun j => progress_due j n) (seqZ i (Z.of_nat k))
  ∧ Forall (reports_counts (total_users c))
      (List.filter is_progress_edit (engine_effects env m n users i c k)).
Proof.
  induction users as [|u rest IH]; intros i c k Hk Hc; destruct k as [|k];
    cbn [engine_effects]; try (by split; [|constructor]).
  { simpl in Hk. lia. }
  simpl in Hk.
  destruct (tally_counted (env i) m u c) as [Hc' Ht'].
  destruct (IH (i + 1) (tally (env i) m u c) k) as [IH1 IH2]; [lia|lia|].
  rewrite !List.filter_app, deliver_effects_progress. simpl app.
  rewrite seqZ_cons by lia. cbn [List.filter].
  replace (Z.pred (Z.of_nat (S k))) with (Z.of_nat k) by lia.
  replace (Z.succ i) with (i + 1) by lia.
  rewrite Ht' in IH2.
  destruct (progress_due i n).
  - rewrite progress_effects_progress. cbn [app map edit_index]. split.
    + f_equal; [lia|done].
    + constructor; [|done]. rewrite Ht'. eexists _, _, _. split; [done|].
      unfold counted in *. lia.
  - done.
Qed.

End EngineEffects.

(* ===================================================================== *)
(** ** Around the loop: [handle_broadcast_message] *)
(* ===================================================================== *)

Section Handler.

Implicit Types (w : world) (m : message) (users : list user)
  (p : effect → bool) (x : loop_exit).

Lemma handle_broadcast_message_run env actor m w :
  starts_run actor w →
  handle_broadcast_message env actor m w
  = finish_broadcast env actor m (loop_of env actor m w).
Proof.
  intros (Hflag & Hadmin & Husers).
  unfold handle_broadcast_message, loop_of. rewrite Hflag, Hadmin. simpl.
  by destruct (users_db w).
Qed.

Lemma begin_broadcast_frame env actor users w :
  broadcasts_db (begin_broadcast env actor users w) = broadcasts_db w.
Proof. unfold begin_broadcast. by rewrite run_events_broadcasts. Qed.

Lemma begin_broadcast_filter p env actor users w :
  (∀ e, chatter e = true → p e = false) →
  List.filter p (trace (begin_broadcast env actor users w))
  = List.filter p (trace w)
    ++ List.filter p [EProgressStart actor (Z.of_nat (length users))].
Proof.
  intros Hp. unfold begin_broadcast.
  by rewrite (run_events_filter p _ _ Hp), filter_emit.
Qed.

(** The flag is reset before the first progress message is sent; only a
    cancellation by the same actor during that send can set it again. *)
Lemma begin_broadcast_flag env actor users w :
  Forall (fun ev => cancels actor ev = false) (during_start env) →
  broadcast_cancelled (session (begin_broadcast env actor users w) actor)
  = Some false.
Proof.
  intros H. unfold begin_broadcast. rewrite (run_events_flag _ _ _ H).
  rewrite session_emit. by rewrite session_update_same.
Qed.

Lemma show_broadcast_stats_filter p a w :
  (∀ e, chatter e = true → p e = false) →
  List.filter p (trace (show_broadcast_stats a w)) = List.filter p (trace w).
Proof.
  intros Hp. destruct (show_broadcast_stats_emits a w) as [r ->].
  rewrite filter_emit. simpl. rewrite (Hp (EReply a r) eq_refl).
  apply app_nil_r.
Qed.

Lemma finish_broadcast_flag actor x :
  get_flag (broadcast_cancelled
              (session (update_session actor (set_in_progress None)
                          (exit_world x)) actor))
  = cancelled_at_exit actor x.
Proof. by rewrite session_update_same. Qed.

Lemma finish_broadcast_broadcasts env actor m x :
  broadcasts_db (finish_broadcast env actor m x)
  = if cancelled_at_exit actor x then broadcasts_db (exit_world x)
    else broadcasts_db (exit_world x)
         ++ [mk_run actor (message_type_of m) (now env) (exit_stats x)].
Proof.
  unfold finish_broadcast. cbv zeta.
  rewrite show_broadcast_stats_broadcasts, finish_broadcast_flag.
  destruct (final_edit_ok env); cbn [emit broadcasts_db];
    rewrite run_events_broadcasts;
    by destruct (cancelled_at_exit actor x).
Qed.

Lemma finish_broadcast_filter p env actor m x :
  (∀ e, chatter e = true → p e = false) →
  List.filter p (trace (finish_broadcast env actor m x))
  = List.filter p (trace (exit_world x))
    ++ List.filter p
         (finish_effects env (cancelled_at_exit actor x)
            (total_users (exit_stats x))).
Proof.
  intros Hp. unfold finish_broadcast, finish_effects. cbv zeta.
  rewrite (show_broadcast_stats_filter p _ _ Hp), finish_broadcast_flag.
  destruct (final_edit_ok env).
  - rewrite (run_events_filter p _ _ Hp), filter_emit.
    destruct (cancelled_at_exit actor x); cbn [negb].
    + done.
    + unfold write_broadcasts. rewrite filter_emit. cbn [trace].
      rewrite <- app_assoc. by rewrite <- List.filter_app.
  - rewrite filter_emit, (run_events_filter p _ _ Hp), filter_emit.
    destruct (cancelled_at_exit actor x); cbn [negb].
    + rewrite <- app_assoc. by rewrite <- List.filter_app.
    + unfold write_broadcasts. rewrite filter_emit. cbn [trace].
      rewrite <- !app_assoc. by rewrite <- !List.filter_app.
Qed.

(** Up to what interleaved handlers add, the effects of a whole run. *)
Lemma handle_broadcast_message_filter p env actor m w :
  (∀ e, chatter e = true → p e = false) →
  starts_run actor w →
  let x := loop_of env actor m w in
  List.filter p (trace (handle_broadcast_message env actor m w))
  = List.filter p (trace w)
    ++ List.filter p
         (EProgressStart actor (Z.of_nat (length (users_db w)))
          :: engine_effects (deliveries env) m
               (Z.of_nat (length (users_db w))) (users_db w) 0
               (mk_stats (Z.of_nat (length (users_db w))) 0 0 0 0)
               (Z.to_nat (processed x))
          ++ finish_effects env (cancelled_at_exit actor x)
               (total_users (exit_stats x))).
Proof.
  intros Hp Hrun x. rewrite (handle_broadcast_message_run _ _ _ _ Hrun).
  fold x. rewrite (finish_broadcast_filter p _ _ _ _ Hp).
  unfold x at 1. unfold loop_of, run_loop.
  rewrite (broadcast_loop_filter p _ _ _ _ _ _ _ _ Hp).
  rewrite (begin_broadcast_filter p _ _ _ _ Hp). cbn [update_session trace].
  rewrite Z.sub_0_r. fold (run_loop env actor m (users_db w)
    (begin_broadcast env actor (users_db w)
       (update_session actor (set_awaiting None) w))).
  fold (loop_of env actor m w). fold x.
  rewrite <- !app_assoc, <- !List.filter_app. done.
Qed.

End Handler.

(* ===================================================================== *)
(** ** Markers stay with the operators *)
(* ===================================================================== *)

Section Markers.

Implicit Types (w : world) (ev : event) (evs : list event).

Lemma markers_same_sessions w w' :
  sessions w' = sessions w → no_foreign_markers w → no_foreign_markers w'.
Proof.
  intros H Hw a Ha. rewrite (session_same_sessions w w' a H). by apply Hw.
Qed.

Lemma markers_emit e w : no_foreign_markers w → no_foreign_markers (emit e w).
Proof. by apply markers_same_sessions. Qed.

Lemma markers_update_admin b f w :
  is_admin b = true →
  no_foreign_markers w → no_foreign_markers (update_session b f w).
Proof.
  intros Hb Hw a Ha. rewrite session_update_other; [by apply Hw|].
  intros ->. congruence.
Qed.

Lemma markers_update_neutral b f w :
  creates_no_marker f →
  no_foreign_markers w → no_foreign_markers (update_session b f w).
Proof.
  intros Hf Hw a Ha. destruct (decide (b = a)) as [->|Hne].
  - rewrite session_update_same. destruct (Hw a Ha) as [H1 H2].
    destruct (Hf (session w a)) as [F1 F2]. auto.
  - rewrite session_update_other by done. by apply Hw.
Qed.

Lemma set_cancelled_neutral v : creates_no_marker (set_cancelled v).
Proof. by intros ud. Qed.

Lemma set_stats_neutral v : creates_no_marker (set_stats v).
Proof. by intros ud. Qed.

Lemma unset_awaiting_neutral : creates_no_marker (set_awaiting None).
Proof. by intros ud. Qed.

Lemma unset_in_progress_neutral : creates_no_marker (set_in_progress None).
Proof. by intros ud. Qed.

Lemma markers_show_stats a w :
  no_foreign_markers w → no_foreign_markers (show_broadcast_stats a w).
Proof.
  destruct (show_broadcast_stats_emits a w) as [r ->]. apply markers_emit.
Qed.

Lemma markers_event w ev :
  no_foreign_markers w → no_foreign_markers (handle_event w ev).
Proof.
  intros Hw. destruct ev as [env jr|a|a|a|a|a data]; simpl.
  - apply (markers_same_sessions w); [apply approve_user_frame|done].
  - by apply markers_emit.
  - unfold broadcast. destruct (is_admin a) eqn:Ha; simpl.
    + by apply markers_update_admin, markers_emit.
    + by apply markers_emit.
  - destruct (stats_command_emits a w) as [r ->]. by apply markers_emit.
  - unfold cancel_broadcast. repeat case_bool_decide.
    + apply markers_show_stats, markers_emit.
      by apply markers_update_neutral; [apply set_cancelled_neutral|].
    + apply markers_emit.
      by apply markers_update_neutral; [apply unset_awaiting_neutral|].
    + by apply markers_emit.
  - unfold button_handler. cbv zeta. case_decide.
    + apply markers_emit.
      apply markers_update_neutral; [apply set_cancelled_neutral|].
      by apply markers_emit.
    + by apply markers_emit.
Qed.

Lemma markers_events evs w :
  no_foreign_markers w → no_foreign_markers (run_events evs w).
Proof.
  revert w. induction evs as [|ev evs IH]; intros w Hw; simpl; [done|].
  by apply IH, markers_event.
Qed.

Lemma markers_deliver d m u c w :
  no_foreign_markers w → no_foreign_markers (fst (deliver d m u c w)).
Proof.
  intros Hw. unfold deliver.
  destruct (dispatch m (user_id u)) as [call|]; [|done].
  destruct (outcome d); simpl.
  - by apply markers_emit, markers_events, markers_emit.
  - by apply markers_events, markers_emit.
Qed.

Lemma markers_publish_progress d actor i c w :
  no_foreign_markers w → no_foreign_markers (publish_progress d actor i c w).
Proof.
  intros Hw. unfold publish_progress. cbv zeta.
  assert (no_foreign_markers
            (update_session actor (set_stats (Some c)) w)) as H
    by (by apply markers_update_neutral; [apply set_stats_neutral|]).
  destruct (edit_ok d).
  - by apply markers_events, markers_emit.
  - by apply markers_emit, markers_events, markers_emit.
Qed.

Lemma markers_loop env actor m n users : ∀ i c w,
  no_foreign_markers w →
  no_foreign_markers (exit_world (broadcast_loop env actor m n users i c w)).
Proof.
  induction users as [|u rest IH]; intros i c w Hw; cbn [broadcast_loop].
  - done.
  - destruct (get_flag (broadcast_cancelled (session w actor))); [done|].
    cbv zeta. apply IH. destruct (progress_due i n).
    + by apply markers_publish_progress, markers_deliver.
    + by apply markers_deliver.
Qed.

Lemma markers_content env actor m w :
  no_foreign_markers w →
  no_foreign_markers (handle_broadcast_message env actor m w).
Proof.
  intros Hw. unfold handle_broadcast_message.
  destruct (get_flag (awaiting_broadcast (session w actor))); [|done].
  destruct (is_admin actor) eqn:Ha; [|done]. cbn [negb].
  assert (H0 : no_foreign_markers
                 (update_session actor (set_awaiting None) w))
    by (by apply markers_update_admin).
  cbv zeta. cbn [users_db update_session].
  destruct (users_db w) as [|u rest]; [by apply markers_emit|].
  unfold finish_broadcast, run_loop, begin_broadcast. cbv zeta.
  apply markers_show_stats.
  match goal with
  | |- context [broadcast_loop ?e ?a ?m0 ?n ?l ?i ?c ?w0] =>
      assert (Hx : no_foreign_markers
                     (exit_world (broadcast_loop e a m0 n l i c w0)));
      [|set (x := broadcast_loop e a m0 n l i c w0) in *]
  end.
  { apply markers_loop, markers_events, markers_emit.
    by repeat apply markers_update_admin. }
  assert (H1 : no_foreign_markers
                 (update_session actor (set_in_progress None) (exit_world x)))
    by (by apply markers_update_admin).
  assert (H2 : ∀ w2, no_foreign_markers w2 →
                no_foreign_markers
                  (if final_edit_ok env
                   then run_events (during_final_edit env)
                          (emit (EFinalEdit (total_users (exit_stats x))) w2)
                   else emit (ELog LogFinalProgress)
                          (run_events (during_final_edit env)
                             (emit (EFinalEdit (total_users (exit_stats x)))
                                w2)))).
  { intros w2 Hw2. destruct (final_edit_ok env).
    - by apply markers_events, markers_emit.
    - by apply markers_emit, markers_events, markers_emit. }
  apply H2. destruct (negb _); [|done].
  unfold write_broadcasts. apply markers_emit.
  by apply (markers_same_sessions
              (update_session actor (set_in_progress None) (exit_world x))).
Qed.

(** From the freshly initialised state, whatever updates arrive, only
    operators ever hold a marker. *)
Lemma markers_updates (ups : list update) w :
  no_foreign_markers w → no_foreign_markers (run_updates ups w).
Proof.
  revert w. induction ups as [|up ups IH]; intros w Hw; simpl; [done|].
  apply IH. destruct up as [ev|env actor m]; simpl.
  - by apply markers_event.
  - by apply markers_content.
Qed.

Lemma fresh_no_markers : no_foreign_markers fresh.
Proof. intros a _. done. Qed.

(** So the cancel command, which makes no allow-list check of its own,
    still changes nothing for an actor outside the list. *)
Lemma cancel_command_harmless (ups : list update) actor :
  is_admin actor = false →
  let w := run_updates ups fresh in
  cancel_broadcast actor w = emit (EReply actor NoBroadcastToCancel) w.
Proof.
  intros Ha w.
  destruct (markers_updates ups fresh fresh_no_markers actor Ha) as [H1 H2].
  unfold cancel_broadcast. fold w in H1, H2. rewrite H1, H2.
  by rewrite !bool_decide_eq_false_2 by (by intros [? ?]).
Qed.

End Markers.

(* ===================================================================== *)
(** ** Invariants of the users and channels files *)
(* ===================================================================== *)

Section StoreInvariant.

(** A property of the two files that [save_user] keeps is kept by every
    handler, because [save_user] is the only writer of those files. *)
Variable P : world → Prop.

Hypothesis P_files :
  ∀ w w', users_db w' = users_db w → channels_db w' = channels_db w →
          P w → P w'.

Hypothesis P_save_user :
  ∀ t1 t2 uid un fn ln cid ct w,
    P w → P (save_user t1 t2 uid un fn ln cid ct w).

Implicit Types (w : world) (ev : event) (evs : list event).

Lemma kept_emit e w : P w → P (emit e w).
Proof. by apply P_files. Qed.

Lemma kept_update_session a f w : P w → P (update_session a f w).
Proof. by apply P_files. Qed.

Lemma kept_show_stats a w : P w → P (show_broadcast_stats a w).
Proof.
  destruct (show_broadcast_stats_emits a w) as [r ->]. apply kept_emit.
Qed.

Lemma kept_approve_user env jr w : P w → P (approve_user env jr w).
Proof.
  intros Hw. unfold approve_user. cbv zeta. destruct (approve_ok env).
  - destruct (notify_ok env); repeat apply kept_emit;
      by apply P_save_user; repeat apply kept_emit.
  - by repeat apply kept_emit.
Qed.

Lemma kept_event w ev : P w → P (handle_event w ev).
Proof.
  intros Hw. destruct ev as [env jr|a|a|a|a|a data]; simpl.
  - by apply kept_approve_user.
  - by apply kept_emit.
  - unfold broadcast. destruct (is_admin a); simpl.
    + by apply kept_update_session, kept_emit.
    + by apply kept_emit.
  - destruct (stats_command_emits a w) as [r ->]. by apply kept_emit.
  - unfold cancel_broadcast. repeat case_bool_decide.
    + by apply kept_show_stats, kept_emit, kept_update_session.
    + by apply kept_emit, kept_update_session.
    + by apply kept_emit.
  - unfold button_handler. cbv zeta. case_decide.
    + by apply kept_emit, kept_update_session, kept_emit.
    + by apply kept_emit.
Qed.

Lemma kept_events evs w : P w → P (run_events evs w).
Proof.
  revert w. induction evs as [|ev evs IH]; intros w Hw; simpl; [done|].
  by apply IH, kept_event.
Qed.

Lemma kept_deliver d m u c w : P w → P (fst (deliver d m u c w)).
Proof.
  intros Hw. unfold deliver.
  destruct (dispatch m (user_id u)) as [call|]; [|done].
  destruct (outcome d); simpl.
  - by apply kept_emit, kept_events, kept_emit.
  - by apply kept_events, kept_emit.
Qed.

Lemma kept_publish_progress d actor i c w :
  P w → P (publish_progress d actor i c w).
Proof.
  intros Hw. unfold publish_progress. cbv zeta. destruct (edit_ok d).
  - by apply kept_events, kept_emit, kept_update_session.
  - by apply kept_emit, kept_events, kept_emit, kept_update_session.
Qed.

Lemma kept_loop env actor m n users : ∀ i c w,
  P w → P (exit_world (broadcast_loop env actor m n users i c w)).
Proof.
  induction users as [|u rest IH]; intros i c w Hw; cbn [broadcast_loop].
  - done.
  - destruct (get_flag (broadcast_cancelled (session w actor))); [done|].
    cbv zeta. apply IH. destruct (progress_due i n).
    + by apply kept_publish_progress, kept_deliver.
    + by apply kept_deliver.
Qed.

Lemma kept_content env actor m w :
  P w → P (handle_broadcast_message env actor m w).
Proof.
  intros Hw. unfold handle_broadcast_message.
  destruct (get_flag (awaiting_broadcast (session w actor))); [|done].
  destruct (is_admin actor); [|done]. cbv zeta. cbn [negb].
  cbn [users_db update_session].
  destruct (users_db w) as [|u rest] eqn:E.
  { by apply kept_emit, kept_update_session. }
  unfold finish_broadcast, run_loop, begin_broadcast. cbv zeta.
  apply kept_show_stats.
  match goal with
  | |- context [broadcast_loop ?e ?a ?m0 ?n ?l ?i ?c ?w0] =>
      assert (Hx : P (exit_world (broadcast_loop e a m0 n l i c w0)));
      [|set (x := broadcast_loop e a m0 n l i c w0) in *]
  end.
  { apply kept_loop, kept_events, kept_emit.
    by repeat apply kept_update_session. }
  assert (H2 : ∀ w2, P w2 →
                P (if final_edit_ok env
                   then run_events (during_final_edit env)
                          (emit (EFinalEdit (total_users (exit_stats x))) w2)
                   else emit (ELog LogFinalProgress)
                          (run_events (during_final_edit env)
                             (emit (EFinalEdit (total_users (exit_stats x)))
                                w2)))).
  { intros w2 Hw2. destruct (final_edit_ok env).
    - by apply kept_events, kept_emit.
    - by apply kept_emit, kept_events, kept_emit. }
  apply H2. destruct (negb _).
  - unfold write_broadcasts. apply kept_emit.
    by apply (P_files (update_session actor (set_in_progress None)
                         (exit_world x))), kept_update_session.
  - by apply kept_update_session.
Qed.

Lemma kept_updates (ups : list update) w : P w → P (run_updates ups w).
Proof.
  revert w. induction ups as [|up ups IH]; intros w Hw; simpl; [done|].
  apply IH. destruct up as [ev|env actor m]; simpl.
  - by apply kept_event.
  - by apply kept_content.
Qed.

End StoreInvariant.

(** The invariant of the stores holds in every state the bot can reach from
    the files [init_data_files] creates. *)
Lemma reachable_store_ok (ups : list update) :
  store_ok (run_updates ups fresh).
Proof.
  apply (kept_updates store_ok).
  - intros w w' Hu Hc. unfold store_ok. by rewrite Hu, Hc.
  - intros. by apply save_user_store_ok.
  - apply empty_store_ok.
Qed.

(* ===================================================================== *)
(** ** The broadcast run *)
(* ===================================================================== *)

Section Run.

Implicit Types (w : world) (m : message) (users : list user)
  (x : loop_exit).

Lemma chatter_loop_effect e : chatter e = true → loop_effect e = true.
Proof. by destruct e. Qed.

Lemma is_write_loop e :
  loop_effect e = true → is_write BROADCASTS_FILE e = false.
Proof.
  destruct e as [[]| | | | | | | | | | | |]; try done;
    intros _; by apply bool_decide_eq_false.
Qed.

Lemma is_final_edit_loop e : loop_effect e = true → is_final_edit e = false.
Proof. by destruct e. Qed.

(** The recipients the loop contacted are the first [processed] users of
    the snapshot, in order and once each. *)
Lemma loop_contacts env actor m users w :
  (∀ chat, is_Some (dispatch m chat)) →
  let x := run_loop env actor m users w in
  map send_target (List.filter is_send (trace (exit_world x)))
  = map send_target (List.filter is_send (trace w))
    ++ map user_id (take (Z.to_nat (processed x)) users).
Proof.
  intros Hm x. unfold x, run_loop.
  rewrite (broadcast_loop_filter is_send); [|by intros []].
  rewrite map_app, Z.sub_0_r. f_equal. by apply engine_effects_sends.
Qed.

(** The progress indicator is republished exactly after the processed
    recipients whose zero-based index is divisible by 10 or is the last of
    the snapshot, each time with the number processed, the computed
    percentage, and success and failure counts that add up to it. *)
Lemma loop_progress_cadence env actor m users w :
  let n := Z.of_nat (length users) in
  let x := run_loop env actor m users w in
  ∃ new,
    List.filter is_progress_edit (trace (exit_world x))
    = List.filter is_progress_edit (trace w) ++ new
    ∧ map edit_index new
      = List.filter (fun j => (j mod 10 =? 0) || (j =? n - 1))
          (seqZ 0 (processed x))
    ∧ Forall (reports_counts n) new.
Proof.
  intros n x. unfold x, run_loop.
  rewrite (broadcast_loop_filter is_progress_edit); [|by intros []].
  eexists. split; [done|]. rewrite Z.sub_0_r. fold n.
  pose proof (broadcast_loop_counts (deliveries env) actor m n users 0
                (mk_stats n 0 0 0 0) w) as (_ & Hr & _).
  cbv zeta in Hr.
  destruct (engine_effects_progress (deliveries env) m n users 0
              (mk_stats n 0 0 0 0)
              (Z.to_nat (processed (broadcast_loop (deliveries env) actor m n
                                      users 0 (mk_stats n 0 0 0 0) w))))
    as [H1 H2]; [lia|done|].
  split; [|done]. rewrite H1. by rewrite Z2Nat.id by lia.
Qed.

(** What holds of the counters and of the number processed when the loop
    is left. *)
Lemma run_loop_counts env actor m users w :
  let x := run_loop env actor m users w in
  let total := Z.of_nat (length users) in
  counted (exit_stats x) = processed x
  ∧ 0 ≤ processed x ≤ total
  ∧ total_users (exit_stats x) = total
  ∧ (cancelled_at_exit actor x = false → processed x = total)
  ∧ (processed x < total ↔ stopped x = true).
Proof.
  intros x total.
  pose proof (broadcast_loop_counts (deliveries env) actor m total users 0
                (mk_stats total 0 0 0 0) w) as H.
  change (broadcast_loop (deliveries env) actor m total users 0
            (mk_stats total 0 0 0 0) w) with x in H.
  cbv zeta in H. destruct H as (H1 & H2 & H3 & H4 & H5).
  change (counted (mk_stats total 0 0 0 0)) with 0 in H1.
  cbn [total_users] in H5.
  split; [lia|]. split; [lia|]. split; [done|]. split.
  - intros Hc. destruct (stopped x) eqn:Hs; [|by rewrite H3].
    destruct (H4 eq_refl). congruence.
  - split.
    + intros Hlt. destruct (stopped x) eqn:Hs; [done|].
      specialize (H3 eq_refl). lia.
    + intros Hs. destruct (H4 Hs). lia.
Qed.

Lemma ready_starts_run : starts_run operator (broadcast operator two_users).
Proof. split; [|split]; [reflexivity|reflexivity|discriminate]. Defined.

End Run.

Section Outcome.

Implicit Types (w : world) (m : message) (users : list user)
  (x : loop_exit).

Lemma final_edit_once env actor m w :
  starts_run actor w →
  List.filter is_final_edit (trace (handle_broadcast_message env actor m w))
  = List.filter is_final_edit (trace w)
    ++ [EFinalEdit (Z.of_nat (length (users_db w)))].
Proof.
  intros Hrun.
  pose proof (run_loop_counts env actor m (users_db w)
                (begin_broadcast env actor (users_db w)
                   (update_session actor (set_awaiting None) w)))
    as (_ & _ & Htotal & _).
  change (total_users (exit_stats (loop_of env actor m w))
          = Z.of_nat (length (users_db w))) in Htotal.
  rewrite (handle_broadcast_message_filter is_final_edit);
    [|intros e He; by apply is_final_edit_loop, chatter_loop_effect|done].
  f_equal. cbn [List.filter is_final_edit].
  rewrite List.filter_app.
  rewrite engine_effects_silent by (intros e; apply is_final_edit_loop).
  unfold finish_effects. rewrite Htotal.
  by destruct (cancelled_at_exit actor _), (final_edit_ok env).
Qed.

(** The flag is reset before the first progress message is sent, whatever
    an earlier run left in the session; unless a cancellation by the same
    operator is handled while that message is being sent, the check before
    the first recipient finds it unset and the first recipient is served. *)
Lemma first_recipient_is_served env actor m w :
  starts_run actor w →
  Forall (fun ev => cancels actor ev = false) (during_start env) →
  let w1 := begin_broadcast env actor (users_db w)
              (update_session actor (set_awaiting None) w) in
  let x := loop_of env actor m w in
  get_flag (broadcast_cancelled (session w1 actor)) = false
  ∧ 1 ≤ processed x
  ∧ ∀ u call, head (users_db w) = Some u →
      dispatch m (user_id u) = Some call → call ∈ trace (exit_world x).
Proof.
  intros (_ & _ & Husers) Hev w1 x.
  assert (Hflag : get_flag (broadcast_cancelled (session w1 actor)) = false).
  { unfold w1. by rewrite begin_broadcast_flag. }
  split; [done|].
  destruct (users_db w) as [|u rest] eqn:E; [done|].
  assert (Hx : x = broadcast_loop (deliveries env) actor m
                     (Z.of_nat (length (u :: rest))) (u :: rest) 0
                     (mk_stats (Z.of_nat (length (u :: rest))) 0 0 0 0) w1).
  { unfold x, loop_of, run_loop, w1. by rewrite E. }
  pose proof (broadcast_loop_counts (deliveries env) actor m
                (Z.of_nat (length (u :: rest))) (u :: rest) 0
                (mk_stats (Z.of_nat (length (u :: rest))) 0 0 0 0) w1)
    as Hcount.
  cbv zeta in Hcount. rewrite <- Hx in Hcount.
  assert (Hfirst : 1 ≤ processed x).
  { rewrite Hx. cbn [broadcast_loop]. rewrite Hflag.
    match goal with
    | |- context [broadcast_loop ?e ?a ?m0 ?n ?l ?i ?c ?w0] =>
        pose proof (broadcast_loop_counts e a m0 n l i c w0) as (_ & H & _)
    end.
    cbv zeta in *. lia. }
  split; [done|].
  intros u' call [= <-] Hcall.
  set (p := fun e : effect => bool_decide (e = call)).
  destruct (dispatch_is_send _ _ _ Hcall) as [Hsend _].
  assert (Hp : ∀ e, chatter e = true → p e = false).
  { intros e He. apply bool_decide_eq_false. intros ->. by destruct call. }
  pose proof (broadcast_loop_filter p (deliveries env) actor m
                (Z.of_nat (length (u :: rest))) (u :: rest) 0
                (mk_stats (Z.of_nat (length (u :: rest))) 0 0 0 0) w1 Hp)
    as Hfilter.
  cbv zeta in Hfilter. rewrite <- Hx, Z.sub_0_r in Hfilter.
  assert (Hin : call ∈ List.filter p (trace (exit_world x))).
  { rewrite Hfilter. apply elem_of_app. right.
    destruct (Z.to_nat (processed x)) as [|k] eqn:Ek; [lia|].
    cbn [engine_effects]. unfold deliver_effects. rewrite Hcall.
    cbn [app List.filter]. unfold p at 1.
    rewrite bool_decide_eq_true_2 by done. apply list_elem_of_here. }
  apply list_elem_of_In, List.filter_In in Hin as [Hin _].
  by apply list_elem_of_In.
Qed.

End Outcome.

(* ===================================================================== *)
(** ** Who may cancel *)
(* ===================================================================== *)

Section Authorization.

Implicit Types (w : world).

(** The two commands that check [ADMIN_IDS] reject an actor outside it and
    change nothing. *)
Lemma broadcast_rejects actor w :
  is_admin actor = false →
  broadcast actor w = emit (EReply actor NotAuthorized) w.
Proof. intros H. unfold broadcast. by rewrite H. Qed.

Lemma stats_command_rejects actor w :
  is_admin actor = false →
  stats_command actor w = emit (EReply actor NotAuthorized) w.
Proof. intros H. unfold stats_command. by rewrite H. Qed.

(** The cancel command checks the session, not the actor: without a marker
    in the session it answers that there is nothing to cancel. *)
Lemma cancel_broadcast_idle actor w :
  broadcast_in_progress (session w actor) = None →
  awaiting_broadcast (session w actor) = None →
  cancel_broadcast actor w = emit (EReply actor NoBroadcastToCancel) w.
Proof.
  intros H1 H2. unfold cancel_broadcast. rewrite H1, H2.
  rewrite !bool_decide_eq_false_2 by (by intros [? ?]). done.
Qed.

(** The button handler sets the flag for whoever pressed the button. *)
Lemma button_handler_sets_flag actor w :
  broadcast_cancelled
    (session (button_handler actor "cancel_broadcast" w) actor) = Some true
  ∧ trace (button_handler actor "cancel_broadcast" w)
    = trace w ++ [EAnswerQuery actor; EButtonEdit actor].
Proof.
  unfold button_handler. rewrite decide_True by done. cbv zeta. split.
  - by rewrite session_emit, session_update_same.
  - simpl. by rewrite <- app_assoc.
Qed.

(** C4 at the failing input: an actor outside the allow-list presses the
    Cancel button.  No rejection is sent, the message is edited to say the
    broadcast was cancelled, and the actor's cancellation flag goes from
    absent to set. *)
Theorem button_press_not_gated :
  let w' := button_handler stranger "cancel_broadcast" fresh in
  is_admin stranger = false
  ∧ broadcast_cancelled (session fresh stranger) = None
  ∧ broadcast_cancelled (session w' stranger) = Some true
  ∧ trace w' = [EAnswerQuery stranger; EButtonEdit stranger]
  ∧ trace (broadcast stranger fresh) = [EReply stranger NotAuthorized].
Proof. vm_compute. done. Qed.

End Authorization.

(* ===================================================================== *)
(** ** The percentage *)
(* ===================================================================== *)

Section Percentage.

(** C8 at the failing input: with 300 recipients the progress indicator is
    republished after index 170, as it should, but shows 56 percent where
    the floor of 171/300 x 100 is 57: the quotient is rounded to binary64
    before it is multiplied and truncated. *)
Theorem progress_percentage_rounds_down :
  progress_due 170 300 = true
  ∧ percentage 171 300 = 56
  ∧ exact_percentage 171 300 = 57
  ∧ List.filter (fun e => edit_index e =? 170)
      (trace (handle_broadcast_message calm operator hello
                (broadcast operator (crowd 300))))
    = [EProgressEdit 171 300 56 171 0].
Proof. vm_compute. done. Qed.

End Percentage.

(* ===================================================================== *)
(** ** More on the stores *)
(* ===================================================================== *)

Section MoreStores.

Implicit Types (w : world) (u : user) (users : list user).

Lemma init_file_exists {A} (disk : gmap string (list A)) f g :
  is_Some (disk !! file_name g) → is_Some (init_file A disk f !! file_name g).
Proof.
  intros H. unfold init_file. destruct (disk !! file_name f) eqn:E; [done|].
  destruct (decide (file_name f = file_name g)) as [Heq|Hne].
  - rewrite Heq. rewrite lookup_insert_eq. eauto.
  - by rewrite lookup_insert_ne.
Qed.

Lemma init_file_creates {A} (disk : gmap string (list A)) f :
  is_Some (init_file A disk f !! file_name f).
Proof.
  unfold init_file. destruct (disk !! file_name f) eqn:E.
  - rewrite E. eauto.
  - rewrite lookup_insert_eq. eauto.
Qed.

Lemma init_file_keeps {A} (disk : gmap string (list A)) f name l :
  disk !! name = Some l → init_file A disk f !! name = Some l.
Proof.
  intros H. unfold init_file. destruct (disk !! file_name f) eqn:E; [done|].
  rewrite lookup_insert_ne; [done|]. intros <-. congruence.
Qed.

Lemma init_file_only_empty {A} (disk : gmap string (list A)) f name l :
  init_file A disk f !! name = Some l → disk !! name = Some l ∨ l = [].
Proof.
  unfold init_file. destruct (disk !! file_name f) eqn:E; [by left|].
  destruct (decide (file_name f = name)) as [<-|Hne].
  - rewrite lookup_insert_eq. intros [= <-]. by right.
  - rewrite lookup_insert_ne by done. by left.
Qed.

Lemma init_file_noop {A} (disk : gmap string (list A)) f :
  is_Some (disk !! file_name f) → init_file A disk f = disk.
Proof. intros [l H]. unfold init_file. by rewrite H. Qed.

(** X1. Start-up creates the files that are missing, each holding the empty
    list, and leaves every file that exists as it is: after it the four
    data files exist, a file that existed keeps its content, a file exists
    with a non-empty content only if it did before, and running it again
    changes nothing. *)
Theorem init_data_files_keeps_data {A} (disk : gmap string (list A)) :
  let disk' := init_data_files A disk in
  (∀ f, is_Some (disk' !! file_name f))
  ∧ (∀ name l, disk !! name = Some l → disk' !! name = Some l)
  ∧ (∀ name l, disk' !! name = Some l → disk !! name = Some l ∨ l = [])
  ∧ init_data_files A disk' = disk'.
Proof.
  intros disk'.
  assert (Hall : ∀ f, is_Some (disk' !! file_name f)).
  { intros f. unfold disk', init_data_files. simpl.
    destruct f.
    - do 3 apply init_file_exists. apply init_file_creates.
    - do 2 apply init_file_exists. apply init_file_creates.
    - apply init_file_exists. apply init_file_creates.
    - apply init_file_creates. }
  split; [done|]. split; [|split].
  - intros name l H. unfold disk', init_data_files. simpl.
    by do 4 apply init_file_keeps.
  - intros name l H. unfold disk', init_data_files in H. simpl in H.
    do 4 (apply init_file_only_empty in H as [H|H]; [|by right]).
    by left.
  - unfold init_data_files at 1. simpl.
    rewrite (init_file_noop disk' USERS_FILE) by apply Hall.
    rewrite (init_file_noop disk' CHANNELS_FILE) by apply Hall.
    rewrite (init_file_noop disk' ADMINS_FILE) by apply Hall.
    by rewrite (init_file_noop disk' BROADCASTS_FILE) by apply Hall.
Qed.

Lemma init_data_files_keeps_data_witness :
  let disk' := init_data_files nat only_users_file in
  disk' !! "users.json" = Some [7%nat]
  ∧ disk' !! "channels.json" = Some []
  ∧ init_data_files nat disk' = disk'.
Proof.
  intros disk'.
  destruct (init_data_files_keeps_data only_users_file)
    as (Hall & Hkeep & Hnew & Hagain).
  split; [by apply Hkeep|]. split; [|exact Hagain].
  destruct (Hall CHANNELS_FILE) as [l Hl].
  fold disk' in Hl. change (file_name CHANNELS_FILE) with "channels.json" in Hl.
  destruct (Hnew "channels.json" l Hl) as [H| ->]; [|exact Hl].
  discriminate H.
Defined.

Lemma scan_users_absent uid cid users :
  uid ∉ map user_id users → fst (scan_users uid cid users) = false.
Proof.
  intros H. rewrite scan_users_found.
  destruct (existsb _ users) eqn:E; [|done].
  by apply existsb_user_spec in E.
Qed.

(** X2. The first approval of a user appends one record to the users file,
    made of the given profile, the current time and the one channel, and
    leaves the records before it as they are; the first approval into a
    channel appends one record to the channels file, with the user name
    ["channel_<id>"], and then both files are written, users first. *)
Theorem save_user_first_approval t1 t2 uid un fn ln cid ct w :
  let w' := save_user t1 t2 uid un fn ln cid ct w in
  (uid ∉ map user_id (users_db w) →
     users_db w' = users_db w ++ [mk_user uid un fn ln t1 [cid]])
  ∧ (cid ∉ map channel_id (channels_db w) →
     channels_db w'
     = channels_db w
       ++ [mk_channel cid ct ("channel_" +:+ pretty cid) t2]
     ∧ trace w'
       = trace w ++ [EWriteJson USERS_FILE; EWriteJson CHANNELS_FILE]).
Proof.
  intros w'. unfold w'. split.
  - intros H. rewrite save_user_users. unfold saved_users.
    rewrite (scan_users_absent _ _ _ H).
    by rewrite scan_users_missing by by apply scan_users_absent.
  - intros H. rewrite save_user_channels, save_user_trace.
    unfold saved_channels.
    destruct (channel_exists cid (channels_db w)) eqn:E; [|done].
    by apply channel_exists_spec in E.
Qed.

Lemma not_in_small (x : Z) (l : list Z) : bool_decide (x ∈ l) = false → x ∉ l.
Proof. intros H. by apply bool_decide_eq_false in H. Defined.

Lemma save_user_first_approval_witness :
  let w' := save_user "t1" "t2" 13 "carol" "Carol" "C" (-1002) "News"
              two_users in
  users_db w' = [alice; bob; mk_user 13 "carol" "Carol" "C" "t1" [-1002]]
  ∧ channels_db w'
    = [lobby; mk_channel (-1002) "News" "channel_-1002" "t2"]
  ∧ trace w' = [EWriteJson USERS_FILE; EWriteJson CHANNELS_FILE].
Proof.
  destruct (save_user_first_approval "t1" "t2" 13 "carol" "Carol" "C" (-1002)
              "News" two_users) as [Hu Hc].
  split.
  - apply Hu. by apply not_in_small.
  - apply Hc. by apply not_in_small.
Defined.

(** X3. Two approvals of a new user into two different channels leave one
    record of that user: it has the profile and the time of the first
    approval and lists the two channels in the order of approval; what the
    second approval says about the profile is not stored. *)
Theorem second_channel_joins_record
    t1 t2 t3 t4 uid un fn ln un' fn' ln' cid1 ct1 cid2 ct2 w :
  uid ∉ map user_id (users_db w) →
  cid1 ≠ cid2 →
  users_db (save_user t3 t4 uid un' fn' ln' cid2 ct2
              (save_user t1 t2 uid un fn ln cid1 ct1 w))
  = users_db w ++ [mk_user uid un fn ln t1 [cid1; cid2]].
Proof.
  intros Hnew Hne. rewrite !save_user_users.
  pose proof (scan_users_absent uid cid1 _ Hnew) as H1.
  pose proof (scan_users_absent uid cid2 _ Hnew) as H2.
  unfold saved_users at 2. rewrite H1, (scan_users_missing _ _ _ H1).
  unfold saved_users.
  rewrite (scan_users_snoc uid cid2 (users_db w)
             (mk_user uid un fn ln t1 [cid1]) H2 eq_refl).
  simpl. unfold add_channel. simpl.
  rewrite decide_False; [done|].
  intros Hin. apply list_elem_of_singleton in Hin. congruence.
Qed.

Lemma second_channel_joins_record_witness :
  users_db (save_user "t3" "t4" 13 "c" "" "" (-1001) "Lobby"
              (save_user "t1" "t2" 13 "carol" "Carol" "C" (-1002) "News"
                 two_users))
  = [alice; bob; mk_user 13 "carol" "Carol" "C" "t1" [-1002; -1001]].
Proof.
  apply (second_channel_joins_record "t1" "t2" "t3" "t4" 13 "carol" "Carol"
           "C" "c" "" "" (-1002) "News" (-1001) "Lobby" two_users).
  - by apply not_in_small.
  - discriminate.
Defined.

Lemma extends_stores_refl w : extends_stores w w.
Proof.
  split; [|done]. intros i u Hi. exists u. by repeat split.
Qed.

Lemma extends_stores_save_user w0 t1 t2 uid un fn ln cid ct w :
  extends_stores w0 w →
  extends_stores w0 (save_user t1 t2 uid un fn ln cid ct w).
Proof.
  intros [Hu Hc]. split.
  - intros i u Hi. destruct (Hu i u Hi) as (u1 & Hi1 & E1 & E2 & E3 & E4 & E5 & Hp).
    destruct (scan_users_frame uid cid (users_db w) i u1 Hi1)
      as (u2 & Hi2 & F1 & F2 & F3 & F4 & F5 & Happ).
    exists u2. rewrite save_user_users. unfold saved_users. split.
    + destruct (fst (scan_users uid cid (users_db w))); [done|].
      by apply lookup_app_l_Some.
    + repeat split; try congruence.
      destruct Happ as [->|[_ ->]]; [done|].
      etrans; [exact Hp|]. by apply prefix_app_r.
  - rewrite save_user_channels. unfold saved_channels.
    destruct (channel_exists cid (channels_db w)); [done|].
    by apply prefix_app_r.
Qed.

(** X4. Nothing the bot does removes or rewrites what the users and
    channels files hold: whatever updates are handled, every user record
    stays at its place with its identity, names and first-seen time, its
    approved list only gets longer, and every channel record stays at its
    place unchanged. *)
Theorem stores_only_grow (ups : list update) (w0 : world) :
  extends_stores w0 (run_updates ups w0).
Proof.
  apply (kept_updates (extends_stores w0)).
  - intros w w' Hu Hc. unfold extends_stores. by rewrite Hu, Hc.
  - intros. by apply extends_stores_save_user.
  - apply extends_stores_refl.
Qed.

(** X5. In every state the bot reaches from the files created at start-up,
    no two user records share an identity, no approved list names a channel
    twice, and no two channel records share an identity. *)
Theorem store_invariant_always_holds (ups : list update) :
  let w := run_updates ups fresh in
  NoDup (map user_id (users_db w))
  ∧ Forall (fun u => NoDup (approved_channels u)) (users_db w)
  ∧ NoDup (map channel_id (channels_db w)).
Proof. exact (reachable_store_ok ups). Qed.

End MoreStores.

(* ===================================================================== *)
(** ** The broadcasts file and the statistics command *)
(* ===================================================================== *)

Section Reports.

Implicit Types (w : world) (m : message) (ups : list update).

Lemma message_type_known m :
  message_type_of m ∈ ["text"; "photo"; "video"].
Proof.
  unfold message_type_of. destruct (msg_photo m); [destruct (msg_video m)|];
    set_solver.
Qed.

(** An update leaves the broadcasts file as it is or appends one record of
    a run that went through the whole snapshot. *)
Lemma handle_update_broadcasts w up :
  broadcasts_db (handle_update w up) = broadcasts_db w
  ∨ ∃ r, broadcasts_db (handle_update w up) = broadcasts_db w ++ [r]
         ∧ complete_run r.
Proof.
  destruct up as [ev|env actor m]; simpl.
  { left. apply handle_event_broadcasts. }
  destruct (get_flag (awaiting_broadcast (session w actor))) eqn:Hflag;
    [|left; unfold handle_broadcast_message; by rewrite Hflag].
  destruct (is_admin actor) eqn:Hadmin;
    [|left; unfold handle_broadcast_message; by rewrite Hflag, Hadmin].
  destruct (users_db w) as [|u rest] eqn:Husers.
  { left. unfold handle_broadcast_message. rewrite Hflag, Hadmin. simpl.
    by rewrite Husers. }
  assert (Hrun : starts_run actor w).
  { split; [done|]. split; [done|]. by rewrite Husers. }
  rewrite (handle_broadcast_message_run _ _ _ _ Hrun).
  rewrite finish_broadcast_broadcasts.
  set (x := loop_of env actor m w).
  assert (E : broadcasts_db (exit_world x) = broadcasts_db w).
  { unfold x, loop_of, run_loop.
    by rewrite broadcast_loop_broadcasts, begin_broadcast_frame. }
  rewrite E. destruct (cancelled_at_exit actor x) eqn:Hc; [by left|].
  right. eexists. split; [done|].
  pose proof (run_loop_counts env actor m (users_db w)
                (begin_broadcast env actor (users_db w)
                   (update_session actor (set_awaiting None) w)))
    as (H1 & H2 & H3 & H4 & _).
  fold (loop_of env actor m w) in H1, H2, H3, H4. fold x in H1, H2, H3, H4.
  cbv zeta in H1, H2, H3, H4. specialize (H4 Hc).
  split; [done|]. cbn [run_stats message_type admin_id].
  split; [rewrite H3, Husers; simpl; lia|].
  split; [lia|]. apply message_type_known.
Qed.

(** X6. The broadcasts file is append-only, and every record in it is of a
    run that an operator started and that went through its whole snapshot:
    the operator is on the allow-list, there was at least one recipient, the
    four counters add up to the total, and the content kind is one of text,
    photo and video. *)
Theorem reports_are_complete_runs ups w0 :
  let w := run_updates ups w0 in
  broadcasts_db w0 `prefix_of` broadcasts_db w
  ∧ (Forall complete_run (broadcasts_db w0) →
     Forall complete_run (broadcasts_db w)).
Proof.
  revert w0. induction ups as [|up ups IH]; intros w0; simpl; [done|].
  destruct (IH (handle_update w0 up)) as [IH1 IH2].
  destruct (handle_update_broadcasts w0 up) as [E|(r & E & Hr)].
  - rewrite E in IH1, IH2. done.
  - rewrite E in IH1, IH2. split.
    + etrans; [|exact IH1]. by apply prefix_app_r.
    + intros H. apply IH2. apply Forall_app. split; [done|].
      by apply Forall_singleton.
Qed.

Lemma reports_are_complete_runs_witness :
  let w := run_updates one_broadcast fresh in
  broadcasts_db fresh `prefix_of` broadcasts_db w
  ∧ Forall complete_run (broadcasts_db w).
Proof.
  destruct (reports_are_complete_runs one_broadcast fresh) as [H1 H2].
  split; [exact H1|]. apply H2. apply Forall_nil_2.
Defined.

Lemma sum_stats_step (l : list broadcast_run) : ∀ acc,
  Forall complete_run l →
  counted acc = total_users acc →
  let s := fold_left
             (fun acc b =>
                let s := run_stats b in
                mk_stats (total_users acc + total_users s)
                         (successful acc + successful s)
                         (blocked acc + blocked s)
                         (deleted acc + deleted s)
                         (unsuccessful acc + unsuccessful s)) l acc in
  counted s = total_users s.
Proof.
  induction l as [|b l IH]; intros acc Hl Hacc; simpl; [done|].
  apply Forall_cons in Hl as [(_ & _ & Hb & _) Hl].
  apply IH; [done|]. unfold counted in *. simpl. lia.
Qed.

(** X7. In every state reached from start-up, the statistics command
    answers an operator with the numbers of user and channel records and,
    when a broadcast has been recorded, the number of records and totals in
    which the recipients addressed equal the successful, blocked, deleted
    and unsuccessful deliveries together; with no record it says that no
    broadcast was sent.  It changes no file and no session. *)
Theorem stats_totals_add_up ups actor :
  is_admin actor = true →
  let w := run_updates ups fresh in
  ∃ runs,
    stats_command actor w
    = emit (EReply actor
              (BotStatistics (Z.of_nat (length (users_db w)))
                             (Z.of_nat (length (channels_db w))) runs)) w
    ∧ (broadcasts_db w = [] ↔ runs = None)
    ∧ ∀ k s, runs = Some (k, s) →
        k = Z.of_nat (length (broadcasts_db w))
        ∧ total_users s
          = successful s + blocked s + deleted s + unsuccessful s.
Proof.
  intros Ha w.
  pose proof (reports_are_complete_runs ups fresh) as [_ Hall].
  specialize (Hall (Forall_nil_2 _)). fold w in Hall.
  unfold stats_command. rewrite Ha. cbn [negb].
  destruct (broadcasts_db w) as [|b bs] eqn:E.
  - exists None. split; [done|]. split; [done|]. intros k s [=].
  - eexists. split; [done|]. split; [done|].
    intros k s [= <- <-]. split; [done|].
    pose proof (sum_stats_step (b :: bs) (mk_stats 0 0 0 0 0) Hall eq_refl)
      as H.
    cbv zeta in H. unfold sum_stats. unfold counted in H. lia.
Qed.

Lemma stats_totals_add_up_witness :
  let w := run_updates one_broadcast fresh in
  ∃ runs,
    stats_command operator w
    = emit (EReply operator
              (BotStatistics (Z.of_nat (length (users_db w)))
                             (Z.of_nat (length (channels_db w))) runs)) w
    ∧ (broadcasts_db w = [] ↔ runs = None)
    ∧ ∀ k s, runs = Some (k, s) →
        k = Z.of_nat (length (broadcasts_db w))
        ∧ total_users s
          = successful s + blocked s + deleted s + unsuccessful s.
Proof. exact (stats_totals_add_up one_broadcast operator eq_refl). Defined.

End Reports.

(* ===================================================================== *)
(** ** What interleaved handlers and the loop do to a session *)
(* ===================================================================== *)

Section SessionSteps.

Implicit Types (w : world) (ev : event) (evs : list event)
  (ud : user_data).

Lemma event_step_refl ud : event_step ud ud.
Proof. by repeat split; [..|left]. Qed.

Lemma event_step_trans ud1 ud2 ud3 :
  event_step ud1 ud2 → event_step ud2 ud3 → event_step ud1 ud3.
Proof.
  intros (A1 & A2 & A3) (B1 & B2 & B3).
  split; [congruence|]. split; [congruence|].
  destruct B3 as [B3|B3]; [|by right].
  destruct A3 as [A3|A3]; [left|right]; congruence.
Qed.

Lemma loop_step_refl ud : loop_step ud ud.
Proof. by split; [|left]. Qed.

Lemma loop_step_trans ud1 ud2 ud3 :
  loop_step ud1 ud2 → loop_step ud2 ud3 → loop_step ud1 ud3.
Proof.
  intros (A1 & A3) (B1 & B3). split; [congruence|].
  destruct B3 as [B3|B3]; [|by right].
  destruct A3 as [A3|A3]; [left|right]; congruence.
Qed.

Lemma event_loop_step ud ud' : event_step ud ud' → loop_step ud ud'.
Proof. intros (A1 & _ & A3). by split. Qed.

(** A change of one session by [f], seen from any session. *)
Lemma update_session_step (R : user_data → user_data → Prop) b f w a :
  (∀ ud, R ud ud) → (∀ ud, R ud (f ud)) →
  R (session w a) (session (update_session b f w) a).
Proof.
  intros Hrefl Hf. destruct (decide (b = a)) as [->|Hne].
  - rewrite session_update_same. apply Hf.
  - rewrite session_update_other by done. apply Hrefl.
Qed.

Lemma handle_event_step w ev a :
  event_step (session w a) (session (handle_event w ev) a).
Proof.
  destruct ev as [env jr|b|b|b|b|b data]; simpl.
  - rewrite (session_same_sessions w (approve_user env jr w) a);
      [apply event_step_refl|apply approve_user_frame].
  - apply event_step_refl.
  - unfold broadcast. destruct (is_admin b); simpl; [|apply event_step_refl].
    apply (update_session_step event_step b _ (emit _ w) a);
      [apply event_step_refl|].
    intros ud. by repeat split; [..|left].
  - destruct (stats_command_emits b w) as [r ->]. apply event_step_refl.
  - unfold cancel_broadcast. repeat case_bool_decide.
    + rewrite session_show_stats, session_emit.
      apply (update_session_step event_step); [apply event_step_refl|].
      intros ud. by repeat split; [..|right].
    + rewrite session_emit.
      apply (update_session_step event_step); [apply event_step_refl|].
      intros ud. by repeat split; [..|left].
    + apply event_step_refl.
  - unfold button_handler. cbv zeta.
    destruct (decide (data = "cancel_broadcast")); [|apply event_step_refl].
    rewrite session_emit.
    apply (update_session_step event_step b _ (emit _ w) a);
      [apply event_step_refl|].
    intros ud. by repeat split; [..|right].
Qed.

Lemma run_events_step evs w a :
  event_step (session w a) (session (run_events evs w) a).
Proof.
  revert w. induction evs as [|ev evs IH]; intros w; simpl.
  - apply event_step_refl.
  - eapply event_step_trans; [apply handle_event_step|apply IH].
Qed.

Lemma deliver_step d m u c w a :
  event_step (session w a) (session (fst (deliver d m u c w)) a).
Proof.
  unfold deliver. destruct (dispatch m (user_id u)) as [call|];
    [|apply event_step_refl].
  destruct (outcome d); simpl;
    apply (run_events_step (during_send d) (emit call w) a).
Qed.

Lemma publish_progress_step d actor i c w a :
  loop_step (session w a) (session (publish_progress d actor i c w) a).
Proof.
  unfold publish_progress. cbv zeta.
  eapply loop_step_trans.
  - apply (update_session_step loop_step actor (set_stats (Some c)) w a);
      [apply loop_step_refl|].
    intros ud. by split; [|left].
  - apply event_loop_step. destruct (edit_ok d); simpl;
      match goal with
      | |- context [run_events ?evs ?w0] => apply (run_events_step evs w0 a)
      end.
Qed.

Lemma broadcast_loop_step env actor m n users a : ∀ i c w,
  loop_step (session w a)
            (session (exit_world (broadcast_loop env actor m n users i c w))
                     a).
Proof.
  induction users as [|u rest IH]; intros i c w; cbn [broadcast_loop].
  - apply loop_step_refl.
  - destruct (get_flag (broadcast_cancelled (session w actor)));
      [apply loop_step_refl|].
    cbv zeta. eapply loop_step_trans; [|apply IH].
    destruct (progress_due i n).
    + eapply loop_step_trans;
        [apply event_loop_step, deliver_step|apply publish_progress_step].
    + apply event_loop_step, deliver_step.
Qed.

End SessionSteps.

(* ===================================================================== *)
(** ** More on the broadcast run *)
(* ===================================================================== *)

Section MoreRun.

Implicit Types (w : world) (m : message) (users : list user)
  (x : loop_exit).

Lemma hello_has_content : has_content hello.
Proof. intros chat. unfold dispatch. simpl. eauto. Defined.

Lemma finish_effects_sends env cancelled total :
  List.filter is_send (finish_effects env cancelled total) = [].
Proof.
  unfold finish_effects. by destruct cancelled, (final_edit_ok env).
Qed.

(** X8. The recipients of a run are taken from the users file as it is when
    the run starts: the deliveries attempted are to the first [processed]
    users of that snapshot, in its order and once each, whatever join
    requests are approved while the run is under way. *)
Theorem recipients_are_the_snapshot env actor m w :
  starts_run actor w →
  has_content m →
  let x := loop_of env actor m w in
  let w' := handle_broadcast_message env actor m w in
  map send_target (List.filter is_send (trace w'))
  = map send_target (List.filter is_send (trace w))
    ++ map user_id (take (Z.to_nat (processed x)) (users_db w)).
Proof.
  intros Hrun Hm x w'. unfold w'.
  rewrite (handle_broadcast_message_filter is_send); [|by intros []|done].
  fold x. rewrite map_app. f_equal. cbn [List.filter is_send].
  rewrite List.filter_app, finish_effects_sends, app_nil_r.
  by apply engine_effects_sends.
Qed.

Lemma recipients_are_the_snapshot_witness :
  let x := loop_of calm operator hello (broadcast operator two_users) in
  let w' := handle_broadcast_message calm operator hello
              (broadcast operator two_users) in
  map send_target (List.filter is_send (trace w'))
  = map send_target
      (List.filter is_send (trace (broadcast operator two_users)))
    ++ map user_id
         (take (Z.to_nat (processed x))
               (users_db (broadcast operator two_users))).
Proof.
  exact (recipients_are_the_snapshot calm operator hello
           (broadcast operator two_users) ready_starts_run
           hello_has_content).
Defined.

(** X9. During the loop the progress message is edited after the processed
    recipients whose zero-based index is a multiple of 10 and after the last
    recipient of the snapshot, and after no other; each edit shows the
    number processed so far, the snapshot total, the percentage computed
    from the two, and success and failure counts that add up to the number
    processed. *)
Theorem progress_follows_cadence env actor m users w :
  let n := Z.of_nat (length users) in
  let x := run_loop env actor m users w in
  ∃ new,
    List.filter is_progress_edit (trace (exit_world x))
    = List.filter is_progress_edit (trace w) ++ new
    ∧ map edit_index new
      = List.filter (fun j => (j mod 10 =? 0) || (j =? n - 1))
          (seqZ 0 (processed x))
    ∧ Forall (reports_counts n) new.
Proof. exact (loop_progress_cadence env actor m users w). Qed.

Lemma count_results_cons env r j js :
  count_results env r (j :: js)
  = (if bool_decide (result_of (env j) = r) then 1 else 0)
    + count_results env r js.
Proof.
  unfold count_results. cbn [List.filter].
  destruct (bool_decide (result_of (env j) = r)); simpl length; lia.
Qed.

Lemma tally_result d m u c :
  has_content m →
  tally d m u c
  = match result_of d with
    | None => bump_successful c
    | Some k => bump k c
    end.
Proof.
  intros Hm. unfold tally, result_of.
  destruct (Hm (user_id u)) as [call ->]. by destruct (outcome d).
Qed.

Lemma broadcast_loop_tallies env actor m n users : ∀ i c w,
  has_content m →
  let x := broadcast_loop env actor m n users i c w in
  let js := seqZ i (processed x - i) in
  successful (exit_stats x) = successful c + count_results env None js
  ∧ blocked (exit_stats x)
    = blocked c + count_results env (Some Blocked) js
  ∧ deleted (exit_stats x)
    = deleted c + count_results env (Some DeletedAccount) js
  ∧ unsuccessful (exit_stats x)
    = unsuccessful c + count_results env (Some Unsuccessful) js.
Proof.
  intros i c w Hm. revert i c w.
  induction users as [|u rest IH]; intros i c w; cbn [broadcast_loop].
  - simpl. rewrite Z.sub_diag. unfold count_results. simpl. lia.
  - destruct (get_flag (broadcast_cancelled (session w actor))).
    + simpl. rewrite Z.sub_diag. unfold count_results. simpl. lia.
    + cbv zeta. rewrite deliver_tally.
      set (c' := tally (env i) m u c).
      set (w' := if progress_due i n
                 then publish_progress (env i) actor i c'
                        (fst (deliver (env i) m u c w))
                 else fst (deliver (env i) m u c w)).
      pose proof (IH (i + 1) c' w') as IH'.
      pose proof (broadcast_loop_counts env actor m n rest (i + 1) c' w')
        as (_ & Hr & _).
      set (x := broadcast_loop env actor m n rest (i + 1) c' w') in *.
      cbv zeta in IH', Hr.
      rewrite (seqZ_cons i) by lia. rewrite !count_results_cons.
      replace (Z.pred (processed x - i)) with (processed x - (i + 1)) by lia.
      replace (Z.succ i) with (i + 1) by lia.
      destruct IH' as (H1 & H2 & H3 & H4).
      unfold c' in H1, H2, H3, H4. rewrite (tally_result _ _ _ _ Hm) in *.
      destruct (result_of (env i)) as [[]|]; simpl in *;
        repeat case_bool_decide; try congruence; lia.
Qed.

(** X10. At loop exit each counter is the number of processed recipients
    with that result: [successful] counts the deliveries that returned,
    and [blocked], [deleted] and [unsuccessful] count the deliveries that
    raised, by the class of the exception's description. *)
Theorem counters_count_results env actor m users w :
  has_content m →
  let x := run_loop env actor m users w in
  let js := seqZ 0 (processed x) in
  successful (exit_stats x) = count_results (deliveries env) None js
  ∧ blocked (exit_stats x)
    = count_results (deliveries env) (Some Blocked) js
  ∧ deleted (exit_stats x)
    = count_results (deliveries env) (Some DeletedAccount) js
  ∧ unsuccessful (exit_stats x)
    = count_results (deliveries env) (Some Unsuccessful) js.
Proof.
  intros Hm x js.
  pose proof (broadcast_loop_tallies (deliveries env) actor m
                (Z.of_nat (length users)) users 0
                (mk_stats (Z.of_nat (length users)) 0 0 0 0) w Hm) as H.
  cbv zeta in H. rewrite Z.sub_0_r in H. exact H.
Qed.

Lemma counters_count_results_witness :
  let x := run_loop second_refused operator hello (users_db three_users)
             three_users in
  let js := seqZ 0 (processed x) in
  successful (exit_stats x) = count_results (deliveries second_refused) None js
  ∧ blocked (exit_stats x)
    = count_results (deliveries second_refused) (Some Blocked) js
  ∧ deleted (exit_stats x)
    = count_results (deliveries second_refused) (Some DeletedAccount) js
  ∧ unsuccessful (exit_stats x)
    = count_results (deliveries second_refused) (Some Unsuccessful) js.
Proof.
  exact (counters_count_results second_refused operator hello
           (users_db three_users) three_users hello_has_content).
Defined.

End MoreRun.

(* ===================================================================== *)
(** ** When a run stops *)
(* ===================================================================== *)

Section Stopping.

Implicit Types (w : world) (m : message) (users : list user)
  (x : loop_exit) (d : delivery).

Lemma deliver_flag actor d m u c w :
  Forall (fun ev => cancels actor ev = false) (during_send d) →
  broadcast_cancelled (session (fst (deliver d m u c w)) actor)
  = broadcast_cancelled (session w actor).
Proof.
  intros H. unfold deliver.
  destruct (dispatch m (user_id u)) as [call|]; [|done].
  destruct (outcome d); simpl; rewrite ?session_emit;
    by rewrite (run_events_flag _ _ _ H).
Qed.

Lemma publish_progress_flag actor d i c w :
  Forall (fun ev => cancels actor ev = false) (during_edit d) →
  broadcast_cancelled (session (publish_progress d actor i c w) actor)
  = broadcast_cancelled (session w actor).
Proof.
  intros H. unfold publish_progress. cbv zeta.
  destruct (edit_ok d); rewrite ?session_emit;
    rewrite (run_events_flag _ _ _ H), session_emit;
    by rewrite session_update_same.
Qed.

Lemma broadcast_loop_uncancelled env actor m n users : ∀ i c w,
  (∀ j, Forall (fun ev => cancels actor ev = false) (during_send (env j))
        ∧ Forall (fun ev => cancels actor ev = false)
                 (during_edit (env j))) →
  get_flag (broadcast_cancelled (session w actor)) = false →
  let x := broadcast_loop env actor m n users i c w in
  stopped x = false
  ∧ get_flag (broadcast_cancelled (session (exit_world x) actor)) = false.
Proof.
  intros i c w Henv. revert i c w.
  induction users as [|u rest IH]; intros i c w Hflag; cbn [broadcast_loop].
  - done.
  - rewrite Hflag. cbv zeta. apply IH.
    destruct (Henv i) as [Hs He].
    destruct (progress_due i n).
    + by rewrite (publish_progress_flag _ _ _ _ _ He), (deliver_flag _ _ _ _ _ _ Hs).
    + by rewrite (deliver_flag _ _ _ _ _ _ Hs).
Qed.

(** X11. A delivery that fails, or a progress edit that fails, never stops
    a run: when no cancellation by the operator is handled during the run,
    every recipient of the snapshot is processed, whatever the deliveries and
    the edits do, the run does not count as cancelled and its report is
    appended to the broadcasts file. *)
Theorem only_cancellation_stops_a_run env actor m w :
  starts_run actor w →
  never_cancelled actor env →
  let x := loop_of env actor m w in
  let w' := handle_broadcast_message env actor m w in
  processed x = Z.of_nat (length (users_db w))
  ∧ cancelled_at_exit actor x = false
  ∧ broadcasts_db w'
    = broadcasts_db w
      ++ [mk_run actor (message_type_of m) (now env) (exit_stats x)].
Proof.
  intros Hrun [Hstart Hloop] x w'.
  assert (Hc : cancelled_at_exit actor x = false).
  { unfold cancelled_at_exit, x, loop_of, run_loop.
    apply (broadcast_loop_uncancelled (deliveries env)); [done|].
    by rewrite begin_broadcast_flag. }
  pose proof (run_loop_counts env actor m (users_db w)
                (begin_broadcast env actor (users_db w)
                   (update_session actor (set_awaiting None) w)))
    as (_ & _ & _ & H4 & _).
  split; [by apply H4|]. split; [done|].
  unfold w'. rewrite (handle_broadcast_message_run _ _ _ _ Hrun).
  rewrite finish_broadcast_broadcasts. fold x. rewrite Hc.
  unfold x, loop_of, run_loop.
  by rewrite broadcast_loop_broadcasts, begin_broadcast_frame.
Qed.

Lemma three_users_ready : starts_run operator (broadcast operator three_users).
Proof. split; [|split]; [reflexivity|reflexivity|discriminate]. Defined.

Lemma second_refused_never_cancelled : never_cancelled operator second_refused.
Proof.
  split; [apply Forall_nil_2|]. intros i. simpl.
  destruct (i =? 1); split; apply Forall_nil_2.
Defined.

Lemma only_cancellation_stops_a_run_witness :
  let x := loop_of second_refused operator hello
             (broadcast operator three_users) in
  let w' := handle_broadcast_message second_refused operator hello
              (broadcast operator three_users) in
  processed x = 3
  ∧ cancelled_at_exit operator x = false
  ∧ broadcasts_db w'
    = [] ++ [mk_run operator "text" "2024-02-01 10:00:00" (exit_stats x)].
Proof.
  exact (only_cancellation_stops_a_run second_refused operator hello
           (broadcast operator three_users) three_users_ready
           second_refused_never_cancelled).
Defined.

End Stopping.

(* ===================================================================== *)
(** ** The session around a run *)
(* ===================================================================== *)

Section AroundRun.

Implicit Types (w : world) (m : message) (users : list user)
  (x : loop_exit) (d : delivery).

Lemma publish_progress_stats d actor i c w :
  broadcast_stats (session (publish_progress d actor i c w) actor) = Some c.
Proof.
  unfold publish_progress. cbv zeta.
  assert (H : broadcast_stats
                (session (emit (EProgressEdit (i + 1) (total_users c)
                                  (percentage (i + 1) (total_users c))
                                  (successful c)
                                  (blocked c + deleted c + unsuccessful c))
                            (update_session actor (set_stats (Some c)) w))
                         actor) = Some c).
  { rewrite session_emit. by rewrite session_update_same. }
  destruct (edit_ok d); rewrite ?session_emit;
    match goal with
    | |- context [run_events ?evs ?w0] =>
        destruct (run_events_step evs w0 actor) as (_ & -> & _)
    end; exact H.
Qed.

Lemma broadcast_loop_final_stats env actor m n users : ∀ i c w,
  users ≠ [] →
  i + Z.of_nat (length users) = n →
  let x := broadcast_loop env actor m n users i c w in
  stopped x = false →
  broadcast_stats (session (exit_world x) actor) = Some (exit_stats x).
Proof.
  induction users as [|u rest IH]; intros i c w Hne Hn; [done|].
  cbn [broadcast_loop].
  destruct (get_flag (broadcast_cancelled (session w actor))); [done|].
  cbv zeta. destruct rest as [|u' rest'].
  - cbn [broadcast_loop exit_world exit_stats stopped]. intros _.
    simpl in Hn. unfold progress_due.
    replace (i =? n - 1) with true by (symmetry; apply Z.eqb_eq; lia).
    rewrite orb_true_r. apply publish_progress_stats.
  - apply IH; [done|]. rewrite length_cons in Hn. lia.
Qed.

(** After the loop: the running marker is removed, then nothing but
    interleaved handlers touches the sessions before the closing summary. *)
Lemma finish_broadcast_shape env actor m x :
  ∃ w5, finish_broadcast env actor m x = show_broadcast_stats actor w5
        ∧ ∀ a, event_step
                 (session (update_session actor (set_in_progress None)
                             (exit_world x)) a)
                 (session w5 a).
Proof.
  unfold finish_broadcast. cbv zeta. eexists. split; [reflexivity|].
  intros a.
  set (w1 := update_session actor (set_in_progress None) (exit_world x)).
  set (w2 := if negb (get_flag (broadcast_cancelled (session w1 actor)))
             then write_broadcasts
                    (broadcasts_db w1
                     ++ [mk_run actor (message_type_of m) (now env)
                                (exit_stats x)]) w1
             else w1).
  assert (H2 : session w2 a = session w1 a).
  { unfold w2. by destruct (negb _). }
  rewrite <- H2.
  destruct (final_edit_ok env); rewrite ?session_emit;
    apply (run_events_step (during_final_edit env)
             (emit (EFinalEdit (total_users (exit_stats x))) w2) a).
Qed.

(** X13. When the loop runs to the end of the snapshot, the statistics kept
    in the operator's session are the final counters, and the run closes
    with the summary of exactly those counters. *)
Theorem completed_run_summary env actor m w :
  starts_run actor w →
  let x := loop_of env actor m w in
  let w' := handle_broadcast_message env actor m w in
  stopped x = false →
  broadcast_stats (session w' actor) = Some (exit_stats x)
  ∧ last (trace w') = Some (EReply actor (BroadcastProgress (exit_stats x))).
Proof.
  intros Hrun x w' Hs.
  assert (Hx : broadcast_stats (session (exit_world x) actor)
               = Some (exit_stats x)).
  { unfold x, loop_of, run_loop.
    apply broadcast_loop_final_stats; [by destruct Hrun as (_ & _ & ?)|lia|].
    exact Hs. }
  unfold w'. rewrite (handle_broadcast_message_run _ _ _ _ Hrun). fold x.
  destruct (finish_broadcast_shape env actor m x) as (w5 & -> & Hstep).
  assert (H5 : broadcast_stats (session w5 actor) = Some (exit_stats x)).
  { destruct (Hstep actor) as (_ & -> & _).
    by rewrite session_update_same. }
  unfold show_broadcast_stats. rewrite H5. split.
  - by rewrite session_emit.
  - simpl. apply last_snoc.
Qed.

Lemma completed_run_summary_witness :
  let x := loop_of second_refused operator hello
             (broadcast operator three_users) in
  let w' := handle_broadcast_message second_refused operator hello
              (broadcast operator three_users) in
  broadcast_stats (session w' operator) = Some (exit_stats x)
  ∧ last (trace w')
    = Some (EReply operator (BroadcastProgress (exit_stats x))).
Proof.
  exact (completed_run_summary second_refused operator hello
           (broadcast operator three_users) three_users_ready eq_refl).
Defined.

(** X15. An actor outside the allow-list cannot change any state with the
    cancel command: in every state reached from start-up the command answers
    that actor that there is nothing to cancel, and does nothing else. *)
Theorem cancel_command_is_harmless (ups : list update) (actor : Z) :
  is_admin actor = false →
  cancel_broadcast actor (run_updates ups fresh)
  = emit (EReply actor NoBroadcastToCancel) (run_updates ups fresh).
Proof. intros Ha. by apply cancel_command_harmless. Qed.

Lemma cancel_command_is_harmless_witness :
  cancel_broadcast stranger (run_updates one_broadcast fresh)
  = emit (EReply stranger NoBroadcastToCancel)
         (run_updates one_broadcast fresh).
Proof.
  exact (cancel_command_is_harmless one_broadcast stranger eq_refl).
Defined.

Lemma chatter_run_effect e : chatter e = true → run_effect e = false.
Proof. by destruct e as [[]| | | | | | | | | | | |]. Qed.

Lemma outsider_update w up :
  from_outsider up →
  List.filter run_effect (trace (handle_update w up))
  = List.filter run_effect (trace w)
  ∧ broadcasts_db (handle_update w up) = broadcasts_db w.
Proof.
  intros Hout. destruct up as [ev|env actor m]; simpl.
  - split; [|apply handle_event_broadcasts].
    destruct (handle_event_trace w ev) as (t & -> & Ht).
    rewrite List.filter_app, (filter_chatter run_effect t); [apply app_nil_r| |done].
    apply chatter_run_effect.
  - unfold from_outsider in Hout. simpl in Hout.
    unfold handle_broadcast_message. rewrite Hout.
    by destruct (get_flag (awaiting_broadcast (session w actor))).
Qed.

(** X16. Without an update from an operator nothing is broadcast: whatever
    commands, messages, button presses and join requests arrive from actors
    outside the allow-list, no message is delivered to a recipient, no
    progress or completion message is published, and the broadcasts file is
    neither written nor changed. *)
Theorem outsiders_cannot_broadcast (ups : list update) (w0 : world) :
  Forall from_outsider ups →
  let w := run_updates ups w0 in
  List.filter run_effect (trace w) = List.filter run_effect (trace w0)
  ∧ broadcasts_db w = broadcasts_db w0.
Proof.
  intros H. revert w0. induction H as [|up ups Hup Hups IH]; intros w0;
    simpl; [done|].
  destruct (IH (handle_update w0 up)) as [-> ->].
  by apply outsider_update.
Qed.

Lemma outsiders_only_are_outsiders : Forall from_outsider outsiders_only.
Proof. repeat (apply Forall_cons; split; [reflexivity|]). apply Forall_nil_2. Defined.

Lemma outsiders_cannot_broadcast_witness :
  let w := run_updates outsiders_only two_users in
  List.filter run_effect (trace w) = List.filter run_effect (trace two_users)
  ∧ broadcasts_db w = broadcasts_db two_users.
Proof.
  exact (outsiders_cannot_broadcast outsiders_only two_users
           outsiders_only_are_outsiders).
Defined.

(** X17. Cancelling a requested broadcast before its content arrives ends
    the preparation: after the broadcast command and the cancel command the
    session no longer waits for content, and a message sent next is not
    broadcast; the handler leaves the state as it is. *)
Theorem cancelled_preparation_is_over env actor m w :
  broadcast_in_progress (session w actor) = None →
  let w1 := cancel_broadcast actor (broadcast actor w) in
  awaiting_broadcast (session w1 actor) = None
  ∧ handle_broadcast_message env actor m w1 = w1.
Proof.
  intros Hrun w1.
  assert (H0 : broadcast_in_progress (session (broadcast actor w) actor)
               = None).
  { unfold broadcast. destruct (is_admin actor); simpl; [|done].
    by rewrite session_update_same. }
  assert (H1 : awaiting_broadcast (session w1 actor) = None).
  { unfold w1, cancel_broadcast. rewrite H0.
    rewrite bool_decide_eq_false_2 by (by intros [? ?]).
    case_bool_decide as Ha.
    - rewrite session_emit. by rewrite session_update_same.
    - rewrite session_emit.
      destruct (awaiting_broadcast (session (broadcast actor w) actor)) eqn:E;
        [|done].
      exfalso. apply Ha. eauto. }
  split; [done|]. unfold handle_broadcast_message. by rewrite H1.
Qed.

Lemma cancelled_preparation_is_over_witness :
  let w1 := cancel_broadcast operator (broadcast operator two_users) in
  awaiting_broadcast (session w1 operator) = None
  ∧ handle_broadcast_message calm operator hello w1 = w1.
Proof.
  exact (cancelled_preparation_is_over calm operator hello two_users eq_refl).
Defined.

(** X18. With an empty users file a broadcast does not start: the operator
    is told that there is nobody to send to, the session stops waiting for
    content without being marked as running and without statistics, nothing
    is written, and a further message is not taken as content. *)
Theorem empty_users_file_no_run env env' actor m m' w :
  get_flag (awaiting_broadcast (session w actor)) = true →
  is_admin actor = true →
  users_db w = [] →
  let w' := handle_broadcast_message env actor m w in
  trace w' = trace w ++ [EReply actor NoUsersInDatabase]
  ∧ broadcasts_db w' = broadcasts_db w
  ∧ session w' actor = set_awaiting None (session w actor)
  ∧ handle_broadcast_message env' actor m' w' = w'.
Proof.
  intros Hflag Hadmin Husers w'.
  assert (E : w' = emit (EReply actor NoUsersInDatabase)
                     (update_session actor (set_awaiting None) w)).
  { unfold w', handle_broadcast_message. rewrite Hflag, Hadmin. simpl.
    by rewrite Husers. }
  assert (Hs : session w' actor = set_awaiting None (session w actor)).
  { rewrite E, session_emit. by rewrite session_update_same. }
  split; [by rewrite E|]. split; [by rewrite E|]. split; [done|].
  unfold handle_broadcast_message. by rewrite Hs.
Qed.

Lemma empty_users_file_no_run_witness :
  let w' := handle_broadcast_message calm operator hello nobody_yet in
  trace w' = trace nobody_yet ++ [EReply operator NoUsersInDatabase]
  ∧ broadcasts_db w' = broadcasts_db nobody_yet
  ∧ session w' operator = set_awaiting None (session nobody_yet operator)
  ∧ handle_broadcast_message cancel_at_start operator hello w' = w'.
Proof.
  exact (empty_users_file_no_run calm cancel_at_start operator hello hello
           nobody_yet eq_refl eq_refl eq_refl).
Defined.

End AroundRun.

(* ===================================================================== *)
(** ** Approvals, requests and runs together *)
(* ===================================================================== *)

Section Together.

Implicit Types (w : world) (m : message) (users : list user)
  (x : loop_exit) (d : delivery) (ev : event).

Lemma uncancelled_run_processes_all env actor m w :
  never_cancelled actor env →
  let x := loop_of env actor m w in
  processed x = Z.of_nat (length (users_db w))
  ∧ cancelled_at_exit actor x = false.
Proof.
  intros [Hstart Hloop] x.
  assert (Hc : cancelled_at_exit actor x = false).
  { unfold cancelled_at_exit, x, loop_of, run_loop.
    apply (broadcast_loop_uncancelled (deliveries env)); [done|].
    by rewrite begin_broadcast_flag. }
  split; [|done].
  by apply (run_loop_counts env actor m (users_db w)
              (begin_broadcast env actor (users_db w)
                 (update_session actor (set_awaiting None) w))).
Qed.

Lemma approve_user_users aenv jr w :
  approve_ok aenv = true →
  users_db (approve_user aenv jr w)
  = saved_users (now_user aenv) (from_user_id jr)
      (or_else (from_username jr) "No username")
      (or_else (from_first_name jr) "") (or_else (from_last_name jr) "")
      (chat_id jr) (users_db w).
Proof.
  intros Hok. unfold approve_user. rewrite Hok. cbv zeta.
  destruct (notify_ok aenv); cbn [emit users_db];
    by rewrite save_user_users.
Qed.

(** X19. A user whose join request has been approved is a recipient of the
    next broadcast: the user is in the users file, and a run that is not
    cancelled attempts a delivery to every user of the file, in order, the
    new one included, whether or not the approval notification could be
    sent. *)
Theorem approved_user_is_reached aenv jr env actor m w :
  approve_ok aenv = true →
  starts_run actor (approve_user aenv jr w) →
  never_cancelled actor env →
  has_content m →
  let w1 := approve_user aenv jr w in
  let w' := handle_broadcast_message env actor m w1 in
  from_user_id jr ∈ map user_id (users_db w1)
  ∧ map send_target (List.filter is_send (trace w'))
    = map send_target (List.filter is_send (trace w1))
      ++ map user_id (users_db w1).
Proof.
  intros Hok Hrun Hnc Hm w1 w'. split.
  - unfold w1. rewrite (approve_user_users _ _ _ Hok).
    match goal with
    | |- context [saved_users ?t ?uid ?un ?fn ?ln ?cid ?us] =>
        destruct (saved_users_has t uid un fn ln cid us)
          as (u & Hin & Hid & _)
    end.
    apply list_elem_of_In, in_map_iff. exists u.
    split; [done|by apply list_elem_of_In].
  - unfold w'.
    rewrite (handle_broadcast_message_filter is_send); [|by intros []|done].
    destruct (uncancelled_run_processes_all env actor m w1 Hnc) as [Hp _].
    cbv zeta in Hp. rewrite Hp, Nat2Z.id.
    rewrite map_app. f_equal. cbn [List.filter is_send].
    rewrite List.filter_app, finish_effects_sends, app_nil_r.
    rewrite engine_effects_sends by done. by rewrite firstn_all.
Qed.

Lemma carol_then_broadcast :
  starts_run operator
    (approve_user approved carol_joins (broadcast operator two_users)).
Proof. split; [|split]; [reflexivity|reflexivity|discriminate]. Defined.

Lemma calm_never_cancelled : never_cancelled operator calm.
Proof.
  split; [apply Forall_nil_2|]. intros i. split; apply Forall_nil_2.
Defined.

Lemma approved_user_is_reached_witness :
  let w1 := approve_user approved carol_joins (broadcast operator two_users) in
  let w' := handle_broadcast_message calm operator hello w1 in
  13 ∈ map user_id (users_db w1)
  ∧ map send_target (List.filter is_send (trace w'))
    = map send_target (List.filter is_send (trace w1))
      ++ map user_id (users_db w1).
Proof.
  exact (approved_user_is_reached approved carol_joins calm operator hello
           (broadcast operator two_users) eq_refl carol_then_broadcast
           calm_never_cancelled hello_has_content).
Defined.

Lemma handle_event_awaiting actor w ev :
  requests actor ev = false →
  awaiting_broadcast (session w actor) = None →
  awaiting_broadcast (session (handle_event w ev) actor) = None.
Proof.
  intros Hr H. destruct ev as [aenv jr|b|b|b|b|b data]; simpl in *.
  - rewrite (session_same_sessions w (approve_user aenv jr w) actor);
      [done|apply approve_user_frame].
  - done.
  - apply bool_decide_eq_false in Hr.
    unfold broadcast. destruct (is_admin b); simpl; [|done].
    by rewrite session_update_other.
  - by destruct (stats_command_emits b w) as [r ->].
  - unfold cancel_broadcast. repeat case_bool_decide;
      rewrite ?session_show_stats, ?session_emit; [| |done].
    + apply (update_session_step
               (fun ud ud' => awaiting_broadcast ud = None →
                              awaiting_broadcast ud' = None)); auto.
    + apply (update_session_step
               (fun ud ud' => awaiting_broadcast ud = None →
                              awaiting_broadcast ud' = None)); auto.
  - unfold button_handler. cbv zeta. case_decide; [|done].
    rewrite session_emit.
    apply (update_session_step
             (fun ud ud' => awaiting_broadcast ud = None →
                            awaiting_broadcast ud' = None)
             b _ (emit (EAnswerQuery b) w) actor); auto.
Qed.

Lemma run_events_awaiting actor evs w :
  Forall (fun ev => requests actor ev = false) evs →
  awaiting_broadcast (session w actor) = None →
  awaiting_broadcast (session (run_events evs w) actor) = None.
Proof.
  intros H. revert w. induction H as [|ev evs Hev Hevs IH]; intros w Hw;
    simpl; [done|].
  by apply IH, handle_event_awaiting.
Qed.

Lemma broadcast_loop_awaiting env actor m n users : ∀ i c w,
  (∀ j, Forall (fun ev => requests actor ev = false) (during_send (env j))
        ∧ Forall (fun ev => requests actor ev = false)
                 (during_edit (env j))) →
  awaiting_broadcast (session w actor) = None →
  awaiting_broadcast
    (session (exit_world (broadcast_loop env actor m n users i c w)) actor)
  = None.
Proof.
  intros i c w Henv. revert i c w.
  induction users as [|u rest IH]; intros i c w Hw; cbn [broadcast_loop];
    [done|].
  destruct (get_flag (broadcast_cancelled (session w actor))); [done|].
  cbv zeta. apply IH. destruct (Henv i) as [Hs He].
  assert (H1 : awaiting_broadcast
                 (session (fst (deliver (env i) m u c w)) actor) = None).
  { unfold deliver. destruct (dispatch m (user_id u)) as [call|]; [|done].
    destruct (outcome (env i)); simpl; rewrite ?session_emit;
      by apply run_events_awaiting. }
  destruct (progress_due i n); [|done].
  unfold publish_progress. cbv zeta.
  destruct (edit_ok (env i)); rewrite ?session_emit;
    apply run_events_awaiting; try done;
    rewrite session_emit; by rewrite session_update_same.
Qed.

(** X20. One broadcast command lets one message through: when the operator
    sends no further broadcast command while the run is under way, the
    session does not wait for content after the run, and the next message is
    not broadcast; the handler leaves the state as it is. *)
Theorem one_request_one_broadcast env env' actor m m' w :
  starts_run actor w →
  never_requested actor env →
  let w' := handle_broadcast_message env actor m w in
  awaiting_broadcast (session w' actor) = None
  ∧ handle_broadcast_message env' actor m' w' = w'.
Proof.
  intros Hrun (Hstart & Hfinal & Hloop) w'.
  assert (H : awaiting_broadcast (session w' actor) = None).
  { unfold w'. rewrite (handle_broadcast_message_run _ _ _ _ Hrun).
    unfold finish_broadcast. cbv zeta. rewrite session_show_stats.
    assert (Hx : awaiting_broadcast
                   (session (exit_world (loop_of env actor m w)) actor)
                 = None).
    { unfold loop_of, run_loop. apply broadcast_loop_awaiting; [done|].
      unfold begin_broadcast. cbv zeta.
      apply run_events_awaiting; [done|]. rewrite session_emit.
      by rewrite !session_update_same. }
    set (x := loop_of env actor m w) in *.
    set (w1 := update_session actor (set_in_progress None) (exit_world x)).
    assert (H1 : awaiting_broadcast (session w1 actor) = None).
    { unfold w1. by rewrite session_update_same. }
    set (w2 := if negb (get_flag (broadcast_cancelled (session w1 actor)))
               then write_broadcasts
                      (broadcasts_db w1
                       ++ [mk_run actor (message_type_of m) (now env)
                                  (exit_stats x)]) w1
               else w1).
    assert (H2 : session w2 actor = session w1 actor).
    { unfold w2. by destruct (negb _). }
    destruct (final_edit_ok env); rewrite ?session_emit;
      apply run_events_awaiting; try done;
      rewrite session_emit; by rewrite H2. }
  split; [done|]. unfold handle_broadcast_message. by rewrite H.
Qed.

Lemma calm_never_requested : never_requested operator calm.
Proof.
  split; [apply Forall_nil_2|]. split; [apply Forall_nil_2|].
  intros i. split; apply Forall_nil_2.
Defined.

Lemma one_request_one_broadcast_witness :
  let w' := handle_broadcast_message calm operator hello
              (broadcast operator two_users) in
  awaiting_broadcast (session w' operator) = None
  ∧ handle_broadcast_message cancel_while_sending operator hello w' = w'.
Proof.
  exact (one_request_one_broadcast calm cancel_while_sending operator hello
           hello (broadcast operator two_users) ready_starts_run
           calm_never_requested).
Defined.

End Together.

(* ===================================================================== *)
(** ** The run as the program's dispatcher drives it *)
(* ===================================================================== *)

Section Program.

Implicit Types (w : world) (m : message) (x : loop_exit).

Lemma one_at_a_time_never_cancelled actor env :
  one_at_a_time env → never_cancelled actor env.
Proof.
  intros (Hs & _ & Hl). split; [rewrite Hs; apply Forall_nil_2|].
  intros i. destruct (Hl i) as [-> ->]. split; apply Forall_nil_2.
Qed.

Lemma calm_one_at_a_time : one_at_a_time calm.
Proof. split; [done|]. split; [done|]. intros i. by split. Defined.

Lemma second_refused_one_at_a_time : one_at_a_time second_refused.
Proof.
  split; [done|]. split; [done|]. intros i. simpl.
  by destruct (i =? 1).
Defined.

(** C1. At loop exit the four counters add up to the number of recipients
    processed and that number is at most the snapshot total, whatever
    happens during the run; a run that is not cancelled has processed the
    whole snapshot; and under the program's dispatcher the number processed
    equals the total exactly when the run was not cancelled. *)
Theorem loop_exit_counts env actor m w :
  let x := loop_of env actor m w in
  let total := Z.of_nat (length (users_db w)) in
  successful (exit_stats x) + blocked (exit_stats x) + deleted (exit_stats x)
  + unsuccessful (exit_stats x) = processed x
  ∧ 0 ≤ processed x ≤ total
  ∧ total_users (exit_stats x) = total
  ∧ (cancelled_at_exit actor x = false → processed x = total)
  ∧ (one_at_a_time env →
     (processed x = total ↔ cancelled_at_exit actor x = false)).
Proof.
  intros x total.
  pose proof (run_loop_counts env actor m (users_db w)
                (begin_broadcast env actor (users_db w)
                   (update_session actor (set_awaiting None) w)))
    as (H1 & H2 & H3 & H4 & _).
  split; [exact H1|]. split; [exact H2|]. split; [exact H3|].
  split; [exact H4|].
  intros Hseq.
  destruct (uncancelled_run_processes_all env actor m w
              (one_at_a_time_never_cancelled actor env Hseq)) as [Hp Hc].
  split; intros _; [exact Hc|exact Hp].
Qed.

Lemma loop_exit_counts_witness :
  let x := loop_of second_refused operator hello
             (broadcast operator three_users) in
  successful (exit_stats x) + blocked (exit_stats x) + deleted (exit_stats x)
  + unsuccessful (exit_stats x) = processed x
  ∧ 0 ≤ processed x ≤ 3
  ∧ total_users (exit_stats x) = 3
  ∧ (processed x = 3 ↔ cancelled_at_exit operator x = false).
Proof.
  destruct (loop_exit_counts second_refused operator hello
              (broadcast operator three_users)) as (H1 & H2 & H3 & _ & H5).
  split; [exact H1|]. split; [exact H2|]. split; [exact H3|].
  exact (H5 second_refused_one_at_a_time).
Defined.

Lemma message_type_by_content m :
  (msg_photo m ≠ [] → message_type_of m = "photo")
  ∧ (msg_photo m = [] → is_Some (msg_video m) → message_type_of m = "video")
  ∧ (msg_photo m = [] → msg_video m = None → message_type_of m = "text").
Proof.
  unfold message_type_of. split; [|split].
  - by destruct (msg_photo m).
  - intros -> [v ->]. done.
  - by intros -> ->.
Qed.

Lemma last_is_Some {A} (l : list A) : l ≠ [] → is_Some (last l).
Proof.
  induction l as [|a [|b l] IH]; [done|by eexists|].
  intros _. apply IH. done.
Qed.

(** The kind written to the report is the kind of the call the loop makes
    for every recipient. *)
Lemma message_type_matches_call m chat call :
  text_excludes_media m →
  dispatch m chat = Some call →
  message_type_of m = kind_of_call call.
Proof.
  intros Hm. unfold dispatch, message_type_of.
  destruct (truthy (msg_text m)) eqn:Ht.
  - destruct (Hm Ht) as [-> ->]. by intros [= <-].
  - destruct (msg_photo m) as [|f fs] eqn:Hp.
    + simpl. destruct (msg_video m); [|done]. by intros [= <-].
    + destruct (last_is_Some (f :: fs)) as [fid ->]; [done|].
      by intros [= <-].
Qed.

(** C3. A run that leaves the loop with the cancellation flag unset appends
    exactly one record to the broadcasts file and writes that file once; the
    record carries the operator, the content kind, the timestamp, the
    snapshot total and the final counters, which add up to the number
    processed.  The content kind is "photo" for a message with a photo,
    else "video" for one with a video, else "text", and it is the kind of
    the call the loop makes for each recipient.  A run that leaves the loop
    with the flag set leaves the file's content as it was and does not
    write it. *)
Theorem report_written_unless_cancelled env actor m w :
  starts_run actor w →
  let x := loop_of env actor m w in
  let w' := handle_broadcast_message env actor m w in
  broadcasts_db w'
  = (if cancelled_at_exit actor x then broadcasts_db w
     else broadcasts_db w
          ++ [mk_run actor (message_type_of m) (now env) (exit_stats x)])
  ∧ List.filter (is_write BROADCASTS_FILE) (trace w')
    = List.filter (is_write BROADCASTS_FILE) (trace w)
      ++ (if cancelled_at_exit actor x then []
          else [EWriteJson BROADCASTS_FILE])
  ∧ total_users (exit_stats x) = Z.of_nat (length (users_db w))
  ∧ counted (exit_stats x) = processed x
  ∧ (msg_photo m ≠ [] → message_type_of m = "photo")
  ∧ (msg_photo m = [] → is_Some (msg_video m) → message_type_of m = "video")
  ∧ (msg_photo m = [] → msg_video m = None → message_type_of m = "text")
  ∧ (text_excludes_media m →
     ∀ chat call, dispatch m chat = Some call →
                  message_type_of m = kind_of_call call).
Proof.
  intros Hrun x w'. split; [|split; [|split; [|split]]].
  - unfold w'. rewrite (handle_broadcast_message_run _ _ _ _ Hrun).
    rewrite finish_broadcast_broadcasts. fold x.
    assert (E : broadcasts_db (exit_world x) = broadcasts_db w).
    { unfold x, loop_of, run_loop.
      by rewrite broadcast_loop_broadcasts, begin_broadcast_frame. }
    by rewrite E.
  - unfold w'.
    rewrite (handle_broadcast_message_filter (is_write BROADCASTS_FILE));
      [|intros e He; by apply is_write_loop, chatter_loop_effect|done].
    fold x. f_equal. cbn [List.filter]. unfold is_write at 1.
    rewrite bool_decide_eq_false_2 by done.
    rewrite List.filter_app.
    rewrite engine_effects_silent by (intros e; apply is_write_loop).
    unfold finish_effects.
    by destruct (cancelled_at_exit actor x), (final_edit_ok env).
  - by apply (run_loop_counts env actor m (users_db w)
                (begin_broadcast env actor (users_db w)
                   (update_session actor (set_awaiting None) w))).
  - by apply (run_loop_counts env actor m (users_db w)
                (begin_broadcast env actor (users_db w)
                   (update_session actor (set_awaiting None) w))).
  - destruct (message_type_by_content m) as (H1 & H2 & H3).
    split; [exact H1|]. split; [exact H2|]. split; [exact H3|].
    intros Hm chat call. by apply message_type_matches_call.
Qed.

Lemma holiday_photo_no_text : text_excludes_media holiday_photo.
Proof. intros H. discriminate H. Defined.

Lemma report_written_unless_cancelled_witness :
  let x := loop_of second_refused operator holiday_photo
             (broadcast operator three_users) in
  let w' := handle_broadcast_message second_refused operator holiday_photo
              (broadcast operator three_users) in
  broadcasts_db w'
  = [mk_run operator "photo" "2024-02-01 10:00:00" (mk_stats 3 2 1 0 0)]
  ∧ List.filter (is_write BROADCASTS_FILE) (trace w')
    = [EWriteJson BROADCASTS_FILE]
  ∧ total_users (exit_stats x) = 3
  ∧ counted (exit_stats x) = processed x
  ∧ message_type_of holiday_photo = "photo"
  ∧ message_type_of holiday_photo
    = kind_of_call (ESendPhoto 11 "large" (Some "Beach")).
Proof.
  destruct (report_written_unless_cancelled second_refused operator
              holiday_photo (broadcast operator three_users)
              three_users_ready)
    as (H1 & H2 & H3 & H4 & H5 & _ & _ & H8).
  split; [exact H1|]. split; [exact H2|]. split; [exact H3|].
  split; [exact H4|]. split; [apply H5; discriminate|].
  exact (H8 holiday_photo_no_text 11 _ eq_refl).
Defined.

(** C5. Under the program's dispatcher a run that enters the loop is never
    cancelled, and it issues the edit to the terminal "completed, N
    processed" message, without a cancel button, exactly once and with N
    the number of recipients processed.  The progress indicator is replaced
    by the terminal message only through that edit, when the platform
    accepts it: so it is replaced only in a run that was not cancelled, and
    the N it then shows is the number processed. *)
Theorem terminal_message_reports_processed env actor m w :
  starts_run actor w →
  one_at_a_time env →
  let x := loop_of env actor m w in
  let w' := handle_broadcast_message env actor m w in
  cancelled_at_exit actor x = false
  ∧ List.filter is_final_edit (trace w')
    = List.filter is_final_edit (trace w) ++ [EFinalEdit (processed x)]
  ∧ (final_edit_ok env = true → indicator_replaced env w w' (processed x))
  ∧ ∀ N, indicator_replaced env w w' N →
         cancelled_at_exit actor x = false ∧ N = processed x.
Proof.
  intros Hrun Hseq x w'.
  destruct (uncancelled_run_processes_all env actor m w
              (one_at_a_time_never_cancelled actor env Hseq)) as [Hp Hc].
  fold x in Hp, Hc.
  assert (He : List.filter is_final_edit (trace w')
               = List.filter is_final_edit (trace w)
                 ++ [EFinalEdit (processed x)]).
  { unfold w'. rewrite Hp. by apply final_edit_once. }
  split; [exact Hc|]. split; [exact He|]. split; [by split|].
  intros N [_ HN]. split; [exact Hc|].
  rewrite He in HN. apply app_inv_head in HN. by injection HN.
Qed.

Lemma terminal_message_reports_processed_witness :
  let x := loop_of calm operator hello (broadcast operator two_users) in
  let w' := handle_broadcast_message calm operator hello
              (broadcast operator two_users) in
  cancelled_at_exit operator x = false
  ∧ List.filter is_final_edit (trace w')
    = List.filter is_final_edit (trace (broadcast operator two_users))
      ++ [EFinalEdit (processed x)]
  ∧ indicator_replaced calm (broadcast operator two_users) w' (processed x).
Proof.
  destruct (terminal_message_reports_processed calm operator hello
              (broadcast operator two_users) ready_starts_run
              calm_one_at_a_time) as (H1 & H2 & H3 & _).
  split; [exact H1|]. split; [exact H2|]. exact (H3 eq_refl).
Defined.

(** C9. A cancellation never carries over to a later run: the handler
    resets the cancellation flag before the delivery loop, and under the
    program's dispatcher nothing is handled between the reset and the first
    check, so in every run, also one started with the flag set, the check
    before the first recipient finds the flag unset and the first recipient
    is processed: the loop runs at least once and makes its call for the
    first user of the snapshot. *)
Theorem cancellation_does_not_carry_over env actor m w :
  starts_run actor w →
  one_at_a_time env →
  let w1 := begin_broadcast env actor (users_db w)
              (update_session actor (set_awaiting None) w) in
  let x := loop_of env actor m w in
  get_flag (broadcast_cancelled (session w1 actor)) = false
  ∧ 1 ≤ processed x
  ∧ ∀ u call, head (users_db w) = Some u →
      dispatch m (user_id u) = Some call → call ∈ trace (exit_world x).
Proof.
  intros Hrun (Hs & _). apply first_recipient_is_served; [done|].
  rewrite Hs. apply Forall_nil_2.
Qed.

Lemma after_late_press_starts : starts_run operator after_late_press.
Proof. split; [|split]; [reflexivity|reflexivity|discriminate]. Defined.

(** The witness starts from a session in which the flag is set. *)
Lemma cancellation_does_not_carry_over_witness :
  broadcast_cancelled (session after_late_press operator) = Some true
  ∧ (let w1 := begin_broadcast calm operator (users_db after_late_press)
                 (update_session operator (set_awaiting None)
                    after_late_press) in
     let x := loop_of calm operator hello after_late_press in
     get_flag (broadcast_cancelled (session w1 operator)) = false
     ∧ 1 ≤ processed x
     ∧ ESendMessage 11 "hello" ∈ trace (exit_world x)).
Proof.
  split; [reflexivity|].
  destruct (cancellation_does_not_carry_over calm operator hello
              after_late_press after_late_press_starts calm_one_at_a_time)
    as (H1 & H2 & H3).
  split; [exact H1|]. split; [exact H2|].
  exact (H3 alice (ESendMessage 11 "hello") eq_refl eq_refl).
Defined.

End Program.
